(** * Events handler service: ingest and read device events

    A shallow embedding of [src/events/handler.py] (the two Lambda handlers
    [ingest_event] and [get_device_events], the [EventPayload] schema and the
    helpers [_response] and [_parse_body]), together with a model of the two
    collaborators the handlers call: the DynamoDB table [_table] and the SQS
    queue [_queue].

    Conventions.
    - A Python [str] is a [string]; each [ascii] stands for one code point
      (the embedding covers the code points below 256).  DynamoDB orders
      string sort keys by their UTF-8 bytes, which is the code point order,
      that is [String.compare].
    - A Python [int] is a [Z], a Python [float] a binary64 [spec_float].
    - A Python [dict] with string keys that is built, printed or stored is an
      association list (insertion order is kept); the API Gateway parameter
      dictionaries, which are only looked up, are [gmap string string].
    - The table is a [gmap] from the primary key [(PK, SK)] to the item.
    - A handler is a computation in the monad [M]: it threads the [world]
      (table, queue, record of collaborator calls) and either returns a value
      or raises a Python exception. *)

From Stdlib Require Import ZArith List String Ascii.
From Stdlib Require Import SpecFloat.
From stdpp Require Import base option numbers list sorting gmap fin_maps strings pretty.

Local Open Scope string_scope.
Local Open Scope Z_scope.
Local Set Warnings "-register-all".

(** ** Python values *)

(** Python's [float]: IEEE 754 binary64. *)
Definition pyfloat : Type := spec_float.
Definition prec : Z := 53.
Definition emax : Z := 1024.

(** [float(z)] for an [int]; [None] stands for [OverflowError]. *)
Definition float_of_int (z : Z) : option pyfloat :=
  match binary_normalize prec emax z 0 false with
  | S754_infinity _ => None
  | f => Some f
  end.

(** The integer part of a float, towards zero ([None] for inf and nan). *)
Definition float_trunc (f : pyfloat) : option Z :=
  match f with
  | S754_zero _ => Some 0
  | S754_finite s m e =>
      let a := match e with
               | Zneg p => Z.shiftr (Zpos m) (Zpos p)
               | _ => Z.shiftl (Zpos m) e
               end in
      Some (if s then - a else a)
  | _ => None
  end.

(** Whether a float is a whole number (what pydantic asks of a float given
    for an [int] field). *)
Definition float_is_integral (f : pyfloat) : bool :=
  match f with
  | S754_zero _ => true
  | S754_finite _ m e =>
      match e with
      | Zneg p => Z.eqb (Z.land (Zpos m) (Z.ones (Zpos p))) 0
      | _ => true
      end
  | _ => false
  end.

(** A [decimal.Decimal].  The program only ever holds two kinds of them:
    [Decimal(str(f))] for a float [f], and the Decimal boto3 hands back for a
    DynamoDB number that was written from an [int]. *)
Inductive decimal :=
| DecimalOfFloat (f : pyfloat)
| DecimalOfInt (z : Z).

Inductive pyval :=
| PNone
| PBool (b : bool)
| PInt (z : Z)
| PFloat (f : pyfloat)
| PDecimal (d : decimal)
| PStr (s : string)
| PList (l : list pyval)
| PDict (kvs : list (string * pyval)).

(** A [dict] with string keys, in insertion order. *)
Abbreviation dict := (list (string * pyval)).

(** [d.get(k)]. *)
Fixpoint dict_get (d : dict) (k : string) : option pyval :=
  match d with
  | [] => None
  | (k', v) :: d' => if decide (k' = k) then Some v else dict_get d' k
  end.

(** [d[k] = v]: overwrite in place, or append a new key. *)
Fixpoint dict_set (d : dict) (k : string) (v : pyval) : dict :=
  match d with
  | [] => [(k, v)]
  | (k', v') :: d' =>
      if decide (k' = k) then (k, v) :: d' else (k', v') :: dict_set d' k v
  end.

(** Python truthiness, as used by [if x:] and [x or y]. *)
Definition truthy (v : pyval) : bool :=
  match v with
  | PNone => false
  | PBool b => b
  | PInt z => negb (Z.eqb z 0)
  | PFloat f => match f with S754_zero _ => false | _ => true end
  | PDecimal (DecimalOfInt z) => negb (Z.eqb z 0)
  | PDecimal (DecimalOfFloat f) => match f with S754_zero _ => false | _ => true end
  | PStr s => negb (String.eqb s "")
  | PList l => match l with [] => false | _ => true end
  | PDict d => match d with [] => false | _ => true end
  end.

(** ** Strings *)

(** [str.isspace] on one character. *)
Definition py_isspace (c : ascii) : bool :=
  let n := Z.of_N (N_of_ascii c) in
  ((9 <=? n) && (n <=? 13)) || ((28 <=? n) && (n <=? 32))
  || (n =? 133) || (n =? 160).

Fixpoint lstrip (s : string) : string :=
  match s with
  | String c s' => if py_isspace c then lstrip s' else s
  | EmptyString => EmptyString
  end.

Definition rstrip (s : string) : string := String.rev (lstrip (String.rev s)).

(** [s.strip()]. *)
Definition strip (s : string) : string := rstrip (lstrip s).

(** [str(z)] for an [int], as in the f-string [f"TS#{payload.ts}"]. *)
Definition str_of_int (z : Z) : string := pretty z.

Definition digit_val (c : ascii) : option Z :=
  let n := Z.of_N (N_of_ascii c) in
  if (48 <=? n) && (n <=? 57) then Some (n - 48) else None.

(** The characters [int()] skips around a literal.  [PyLong_FromString]
    works on ASCII text and skips what C calls white space, the characters
    9 to 13 and the space; before that a string with a character outside
    ASCII has each code point from 127 on that [str.isspace] holds of turned
    into a space.  The separators 28 to 31, which [str.strip] removes, are
    below 127 and no white space of C: [int()] does not skip them. *)
Definition int_isspace (c : ascii) : bool :=
  let n := Z.of_N (N_of_ascii c) in
  ((9 <=? n) && (n <=? 13)) || (n =? 32) || ((127 <=? n) && py_isspace c).

Fixpoint int_lskip (s : string) : string :=
  match s with
  | String c s' => if int_isspace c then int_lskip s' else s
  | EmptyString => EmptyString
  end.

(** The run of digits at the head of an [int] literal, groups of digits
    separated by single underscores: its value, the number of its digits and
    what follows it.  [after_digit] tells whether the previous character was
    a digit; [None] when an underscore comes first, follows another
    underscore or ends the run. *)
Fixpoint scan_digits (acc n : Z) (after_digit : bool) (s : string)
    : option (Z * Z * string) :=
  match s with
  | EmptyString => if after_digit || (n =? 0) then Some (acc, n, s) else None
  | String c s' =>
      match digit_val c with
      | Some d => scan_digits (10 * acc + d) (n + 1) true s'
      | None =>
          if Ascii.eqb c "_" then
            if after_digit then scan_digits acc n false s' else None
          else if after_digit || (n =? 0) then Some (acc, n, s) else None
      end
  end.

(** [sys.int_info.default_max_str_digits]: the longest run of digits
    [int()] converts; the handlers leave the limit of the interpreter as it
    is. *)
Definition int_max_str_digits : Z := 4300.

(** The literal of [int(s)] after its sign: the run of digits, the limit on
    the number of digits, and then nothing but white space to the end.  The
    left summand is the message of the [ValueError]. *)
Definition int_literal (negative : bool) (r : string) : string + Z :=
  let invalid := inl "invalid literal for int() with base 10" in
  match scan_digits 0 0 false r with
  | Some (v, n, rest) =>
      if int_max_str_digits <? n then
        inl "Exceeds the limit (4300 digits) for integer string conversion"
      else if n =? 0 then invalid
      else match int_lskip rest with
           | EmptyString => inr (if negative then - v else v)
           | _ => invalid
           end
  | None => invalid
  end.

(** [int(s)] for a string, base 10, in the steps of [PyLong_FromString]
    (CPython 3.11): leading white space, a sign, the literal. *)
Definition int_of_str (s : string) : string + Z :=
  match int_lskip s with
  | String "+" r => int_literal false r
  | String "-" r => int_literal true r
  | r => int_literal false r
  end.

(** ** Exceptions *)

(** One entry of pydantic's [ValidationError.errors()]: the error type, the
    field it is about ([loc]), the message and the offending input. *)
Record error_detail := {
  err_type : string;
  err_loc : string;
  err_msg : string;
  err_input : pyval;
}.

(** The exception classes the handlers can meet.  [ClientError] carries the
    service error code ([exc.response["Error"]["Code"]]) and [str(exc)];
    [OtherException] is any other class, by name.  Messages are kept short:
    what Python appends about the offending value is left out. *)
Inductive exn :=
| JSONDecodeError (msg : string)
| ValidationError (errors : list error_detail)
| ValueError (msg : string)
| TypeError (msg : string)
| KeyError (key : string)
| OverflowError (msg : string)
| ClientError (code : string) (msg : string)
| OtherException (name : string).

Inductive outcome (A : Type) :=
| Returned (a : A)
| Raised (e : exn).
Arguments Returned {A} a.
Arguments Raised {A} e.

Definition outcome_bind {A B} (k : A → outcome B) (o : outcome A) : outcome B :=
  match o with
  | Returned a => k a
  | Raised e => Raised e
  end.

(** ** Library functions taken as given

    The decoders of the libraries are parameters of the embedding:
    [json.loads] (the left summand is the message of the [JSONDecodeError]),
    Python's [float(s)] on a string, and the two lax string coercions of
    pydantic (a numeric string given for an [int] or a [float] field). *)
Record library := {
  json_loads : string → string + pyval;
  float_of_str : string → option pyfloat;
  str_as_int : string → option Z;
  str_as_float : string → option pyfloat;
}.

(** [float(v)]. *)
Definition py_float (L : library) (v : pyval) : outcome pyfloat :=
  let of_int z :=
    match float_of_int z with
    | Some f => Returned f
    | None => Raised (OverflowError "int too large to convert to float")
    end in
  match v with
  | PFloat f | PDecimal (DecimalOfFloat f) => Returned f
  | PInt z | PDecimal (DecimalOfInt z) => of_int z
  | PBool b => of_int (if b then 1 else 0)
  | PStr s =>
      match float_of_str L s with
      | Some f => Returned f
      | None => Raised (ValueError "could not convert string to float")
      end
  | _ => Raised (TypeError "float() argument must be a string or a real number")
  end.

(** [int(v)].  For [Decimal(str(f))] the integer part is that of [f]
    (exact for every [f] below 2^53 in magnitude). *)
Definition py_int (v : pyval) : outcome Z :=
  let of_float f :=
    match float_trunc f with
    | Some z => Returned z
    | None => Raised (OverflowError "cannot convert float infinity or NaN to integer")
    end in
  match v with
  | PInt z | PDecimal (DecimalOfInt z) => Returned z
  | PBool b => Returned (if b then 1 else 0)
  | PFloat f | PDecimal (DecimalOfFloat f) => of_float f
  | PStr s =>
      match int_of_str s with
      | inr z => Returned z
      | inl msg => Raised (ValueError msg)
      end
  | _ => Raised (TypeError "int() argument must be a string or a real number")
  end.

(** ** The collaborators: the DynamoDB table and the SQS queue *)

(** A boto3 key condition, as built with [Key(a).eq(v)], [.between], [.gte],
    [.lte] and [&]. *)
Inductive condition :=
| CondEq (attr v : string)
| CondBetween (attr lo hi : string)
| CondGte (attr v : string)
| CondLte (attr v : string)
| CondAnd (c1 c2 : condition).

(** One call a handler makes to a collaborator, with what the call raised
    ([None]: it returned). *)
Inductive call :=
| CallPutItem (Item : dict) (attribute_not_exists : string) (raised : option exn)
| CallQuery (KeyConditionExpression : condition) (Limit : Z)
    (ScanIndexForward : bool) (raised : option exn)
| CallSendMessage (MessageBody : pyval) (raised : option exn).

(** The state the handlers share: the table, keyed by [(PK, SK)], the
    messages on the queue (oldest first), and the collaborator calls made so
    far (oldest first). *)
Record world := {
  table : gmap (string * string) dict;
  queue : list pyval;
  calls : list call;
}.

Definition empty_world : world := {| table := ∅; queue := []; calls := [] |}.

(** What one invocation reads from outside: the fresh uuid, the clock, the
    message id the queue answers with, and, for each collaborator call, the
    exception the client library raises instead of completing it (network
    and service faults, a request the client refuses to serialise). *)
Record env := {
  uuid4 : string;
  time : pyfloat;
  message_id : string;
  put_fault : option exn;
  query_fault : option exn;
  send_fault : option exn;
}.

(** The handler monad. *)
Definition M (A : Type) : Type := world → outcome A * world.

Definition ret {A} (a : A) : M A := λ w, (Returned a, w).
Definition raise {A} (e : exn) : M A := λ w, (Raised e, w).
Definition bind {A B} (m : M A) (k : A → M B) : M B :=
  λ w, match m w with
       | (Returned a, w') => k a w'
       | (Raised e, w') => (Raised e, w')
       end.
Definition lift {A} (o : outcome A) : M A := λ w, (o, w).

(** [try: x = m  except ...: return ...] followed by [k x]: when [m] raises
    an exception for which [handler] has a clause, the clause gives the
    function's result; any other exception goes on to the caller; [k] runs
    outside the [try]. *)
Definition try_except {A B} (m : M A) (handler : exn → option (M B))
    (k : A → M B) : M B :=
  λ w, match m w with
       | (Returned a, w') => k a w'
       | (Raised e, w') =>
           match handler e with
           | Some h => h w'
           | None => (Raised e, w')
           end
       end.

Notation "'let*' x := m 'in' k" := (bind m (λ x, k))
  (at level 10, x name, m at level 100, k at level 200,
   format "'let*'  x  :=  m  'in'  '/' k").

Definition log_call (c : call) (w : world) : world :=
  {| table := table w; queue := queue w; calls := calls w ++ [c] |}.

(** The primary key of an item: its [PK] and [SK] string attributes. *)
Definition item_key (it : dict) : option (string * string) :=
  match dict_get it "PK", dict_get it "SK" with
  | Some (PStr pk), Some (PStr sk) => Some (pk, sk)
  | _, _ => None
  end.

(** [_table.put_item(Item=item, ConditionExpression="attribute_not_exists(a)")]:
    the write goes through only when the item stored under the same primary
    key, if there is one, has no attribute [a]; otherwise the service answers
    [ConditionalCheckFailedException].  A successful put replaces the item
    under that key. *)
Definition put_item (E : env) (Item : dict) (attribute_not_exists : string) : M () :=
  λ w,
    let raised :=
      match put_fault E with
      | Some e => Some e
      | None =>
          match item_key Item with
          | None => Some (ClientError "ValidationException"
                            "One of the required keys was not given a value")
          | Some k =>
              match table w !! k with
              | Some old =>
                  if dict_get old attribute_not_exists is Some _
                  then Some (ClientError "ConditionalCheckFailedException"
                               "The conditional request failed")
                  else None
              | None => None
              end
          end
      end in
    let w := log_call (CallPutItem Item attribute_not_exists raised) w in
    match raised, item_key Item with
    | None, Some k =>
        (Returned (), {| table := <[k := Item]> (table w);
                         queue := queue w; calls := calls w |})
    | None, None => (Returned (), w)
    | Some e, _ => (Raised e, w)
    end.

Definition str_attr (it : dict) (a : string) : option string :=
  match dict_get it a with
  | Some (PStr s) => Some s
  | _ => None
  end.

(** Key conditions compare strings in code point order. *)
Fixpoint eval_condition (c : condition) (it : dict) : bool :=
  match c with
  | CondEq a v =>
      match str_attr it a with Some s => String.eqb s v | None => false end
  | CondBetween a lo hi =>
      match str_attr it a with
      | Some s => String.leb lo s && String.leb s hi
      | None => false
      end
  | CondGte a v =>
      match str_attr it a with Some s => String.leb v s | None => false end
  | CondLte a v =>
      match str_attr it a with Some s => String.leb s v | None => false end
  | CondAnd c1 c2 => eval_condition c1 it && eval_condition c2 it
  end.

Definition sort_key (it : dict) : string := default "" (str_attr it "SK").

(** The order in which a query walks a partition: ascending sort key when
    [ScanIndexForward], descending otherwise. *)
Definition scan_order (forward : bool) (i1 i2 : dict) : Prop :=
  if forward then String.le (sort_key i1) (sort_key i2)
  else String.le (sort_key i2) (sort_key i1).

Global Instance scan_order_dec forward : RelDecision (scan_order forward).
Proof. intros i1 i2. unfold scan_order. destruct forward; apply _. Defined.

(** All the items that match a key condition, in scan order. *)
Definition matching_rows (tbl : gmap (string * string) dict) (c : condition)
    (forward : bool) : list dict :=
  merge_sort (scan_order forward)
    (filter (λ it, eval_condition c it = true) (map_to_list tbl).*2).

(** What boto3 hands back for a stored attribute: every number is a
    [Decimal]. *)
Fixpoint from_store (v : pyval) : pyval :=
  match v with
  | PInt z => PDecimal (DecimalOfInt z)
  | PList l => PList (map from_store l)
  | PDict kvs => PDict (map (λ kv, (kv.1, from_store kv.2)) kvs)
  | _ => v
  end.

Definition row_from_store (it : dict) : dict :=
  map (λ kv, (kv.1, from_store kv.2)) it.

Record query_result := {
  Items : list dict;
  LastEvaluatedKey : option dict;
}.

Definition key_of_row (it : dict) : dict :=
  [("PK", default PNone (dict_get it "PK"));
   ("SK", default PNone (dict_get it "SK"))].

(** [_table.query(KeyConditionExpression=c, Limit=n, ScanIndexForward=b)]:
    the first [n] matching items in scan order; when the page is cut at [n]
    items the result carries the key of the last one.  The client refuses a
    [Limit] below 1 before anything is sent. *)
Definition query (E : env) (KeyConditionExpression : condition) (Limit : Z)
    (ScanIndexForward : bool) : M query_result :=
  λ w,
    let raised :=
      match query_fault E with
      | Some e => Some e
      | None =>
          if Limit <? 1 then Some (OtherException "ParamValidationError")
          else None
      end in
    let w := log_call (CallQuery KeyConditionExpression Limit
                         ScanIndexForward raised) w in
    match raised with
    | Some e => (Raised e, w)
    | None =>
        let rows := matching_rows (table w) KeyConditionExpression
                      ScanIndexForward in
        let page := take (Z.to_nat Limit) rows in
        (Returned {| Items := row_from_store <$> page;
                     LastEvaluatedKey :=
                       if (Z.to_nat Limit <=? length rows)%nat
                       then key_of_row <$> last page else None |}, w)
    end.

(** [_queue.send_message(MessageBody=json.dumps(msg))]: the message is
    appended to the queue and the queue answers with a message id. *)
Definition send_message (E : env) (MessageBody : pyval) : M string :=
  λ w,
    let w := log_call (CallSendMessage MessageBody (send_fault E)) w in
    match send_fault E with
    | Some e => (Raised e, w)
    | None =>
        (Returned (message_id E),
         {| table := table w; queue := queue w ++ [MessageBody];
            calls := calls w |})
    end.

(** ** The event schema [EventPayload] *)

Record EventPayload := {
  device_id : string;
  type : string;
  value : pyfloat;
  ts : Z;
  raw : option dict;
}.

(** The result of validating one field. *)
Inductive checked (A : Type) :=
| Valid (a : A)
| Invalid (e : error_detail).
Arguments Valid {A} a.
Arguments Invalid {A} e.

Definition errors_of {A} (c : checked A) : list error_detail :=
  match c with
  | Valid _ => []
  | Invalid e => [e]
  end.

Definition missing (field : string) (data : dict) : error_detail :=
  {| err_type := "missing"; err_loc := field; err_msg := "Field required";
     err_input := PDict data |}.

(** A [str] field with [Field(..., min_length=lo, max_length=hi)]: required,
    a string (nothing else is coerced to [str]), within the length bounds. *)
Definition str_field (field : string) (min_length max_length : nat)
    (data : dict) : checked string :=
  match dict_get data field with
  | None => Invalid (missing field data)
  | Some (PStr s) =>
      if (String.length s <? min_length)%nat then
        Invalid {| err_type := "string_too_short"; err_loc := field;
                   err_msg := "String should have at least "
                              +:+ pretty min_length +:+ " character";
                   err_input := PStr s |}
      else if (max_length <? String.length s)%nat then
        Invalid {| err_type := "string_too_long"; err_loc := field;
                   err_msg := "String should have at most "
                              +:+ pretty max_length +:+ " characters";
                   err_input := PStr s |}
      else Valid s
  | Some v =>
      Invalid {| err_type := "string_type"; err_loc := field;
                 err_msg := "Input should be a valid string";
                 err_input := v |}
  end.

(** An [int] field in pydantic's lax mode: an [int] (or [bool]) as it is, a
    float when it is a whole number, a numeric string. *)
Definition int_field (L : library) (field : string) (data : dict) : checked Z :=
  let err t m v := Invalid {| err_type := t; err_loc := field; err_msg := m;
                              err_input := v |} in
  match dict_get data field with
  | None => Invalid (missing field data)
  | Some (PInt z) => Valid z
  | Some (PBool b) => Valid (if b then 1 else 0)
  | Some (PFloat f) =>
      match float_trunc f with
      | Some z =>
          if float_is_integral f then Valid z
          else err "int_from_float"
                 "Input should be a valid integer, got a number with a fractional part"
                 (PFloat f)
      | None => err "finite_number" "Input should be a finite number" (PFloat f)
      end
  | Some (PStr s) =>
      match str_as_int L s with
      | Some z => Valid z
      | None => err "int_parsing"
                  "Input should be a valid integer, unable to parse string as an integer"
                  (PStr s)
      end
  | Some v => err "int_type" "Input should be a valid integer" v
  end.

(** A [float] field in lax mode: a float as it is, an [int] or [bool]
    converted, a numeric string. *)
Definition float_field (L : library) (field : string) (data : dict)
    : checked pyfloat :=
  let err t m v := Invalid {| err_type := t; err_loc := field; err_msg := m;
                              err_input := v |} in
  let of_int z v :=
    match float_of_int z with
    | Some f => Valid f
    | None => err "float_type" "Input should be a valid number" v
    end in
  match dict_get data field with
  | None => Invalid (missing field data)
  | Some (PFloat f) => Valid f
  | Some (PInt z) => of_int z (PInt z)
  | Some (PBool b) => of_int (if b then 1 else 0) (PBool b)
  | Some (PStr s) =>
      match str_as_float L s with
      | Some f => Valid f
      | None => err "float_parsing"
                  "Input should be a valid number, unable to parse string as a number"
                  (PStr s)
      end
  | Some v => err "float_type" "Input should be a valid number" v
  end.

(** [raw: dict | None = None]. *)
Definition optional_dict_field (field : string) (data : dict)
    : checked (option dict) :=
  match dict_get data field with
  | None | Some PNone => Valid None
  | Some (PDict d) => Valid (Some d)
  | Some v =>
      Invalid {| err_type := "dict_type"; err_loc := field;
                 err_msg := "Input should be a valid dictionary";
                 err_input := v |}
  end.

(** A [@field_validator] that runs after the field's own validation; a
    [ValueError] it raises becomes a [value_error] entry for the field. *)
Definition after_validator {A} (field : string) (to_val : A → pyval)
    (f : A → string + A) (c : checked A) : checked A :=
  match c with
  | Valid a =>
      match f a with
      | inr a' => Valid a'
      | inl msg =>
          Invalid {| err_type := "value_error"; err_loc := field;
                     err_msg := "Value error, " +:+ msg;
                     err_input := to_val a |}
      end
  | Invalid e => Invalid e
  end.

(** [not_empty]: the validator of [device_id] and [type] (the left summand
    is the message of the [ValueError]). *)
Definition not_empty (v : string) : string + string :=
  if negb (truthy (PStr (strip v))) then inl "device_id cannot be empty"
  else inr v.

(** [ts_must_be_positive]. *)
Definition ts_must_be_positive (v : Z) : string + Z :=
  if v <=? 0 then inl "ts must be a positive epoch millisecond value"
  else inr v.

Definition check_device_id (data : dict) : checked string :=
  after_validator "device_id" PStr not_empty (str_field "device_id" 1 128 data).
Definition check_type (data : dict) : checked string :=
  after_validator "type" PStr not_empty (str_field "type" 1 64 data).
Definition check_value (L : library) (data : dict) : checked pyfloat :=
  float_field L "value" data.
Definition check_ts (L : library) (data : dict) : checked Z :=
  after_validator "ts" PInt ts_must_be_positive (int_field L "ts" data).
Definition check_raw (data : dict) : checked (option dict) :=
  optional_dict_field "raw" data.

(** [EventPayload] built from the keyword arguments [data]: every field is validated, in declaration order,
    and the errors of all of them are collected. *)
Definition EventPayload_init (L : library) (data : dict)
    : list error_detail + EventPayload :=
  let c1 := check_device_id data in
  let c2 := check_type data in
  let c3 := check_value L data in
  let c4 := check_ts L data in
  let c5 := check_raw data in
  match c1, c2, c3, c4, c5 with
  | Valid d, Valid t, Valid v, Valid s, Valid r =>
      inr {| device_id := d; type := t; value := v; ts := s; raw := r |}
  | _, _, _, _, _ =>
      inl (errors_of c1 ++ errors_of c2 ++ errors_of c3 ++ errors_of c4
           ++ errors_of c5)%list
  end.

(** [e.errors()] as it is put in a response body (pydantic's [url] and [ctx]
    entries are left out). *)
Definition error_dict (e : error_detail) : pyval :=
  PDict [("type", PStr (err_type e)); ("loc", PList [PStr (err_loc e)]);
         ("msg", PStr (err_msg e)); ("input", err_input e)].

(** ** The handlers *)

(** An API Gateway proxy event, as far as the handlers read it: [body]
    ([None]: no such key), [pathParameters] and [queryStringParameters]
    ([None]: absent or null). *)
Record apigw_event := {
  body : option pyval;
  pathParameters : option (gmap string string);
  queryStringParameters : option (gmap string string);
}.

Record lambda_context := { aws_request_id : string }.

(** A handler's result.  [resp_body] is the payload that [json.dumps]
    prints into the ["body"] string. *)
Record response := {
  statusCode : Z;
  headers : list (string * string);
  resp_body : pyval;
}.

Definition _response (status : Z) (body : pyval) (request_id : option string)
    : response :=
  let payload := match body with
                 | PDict d => d
                 | _ => [("message", body)]
                 end in
  let payload := match request_id with
                 | Some rid =>
                     if truthy (PStr rid)
                     then dict_set payload "request_id" (PStr rid)
                     else payload
                 | None => payload
                 end in
  {| statusCode := status;
     headers := [("Content-Type", "application/json");
                 ("X-Request-Id", default "" request_id)];
     resp_body := PDict payload |}.

Definition _parse_body (L : library) (event : apigw_event) : M EventPayload :=
  match body event with
  | Some (PStr raw) =>
      match json_loads L raw with
      | inl msg => raise (JSONDecodeError msg)
      | inr (PDict data) =>
          match EventPayload_init L data with
          | inl errs => raise (ValidationError errs)
          | inr payload => ret payload
          end
      | inr _ => raise (TypeError "argument after ** must be a mapping")
      end
  | _ => raise (ValueError "Message Body is required")
  end.

(** [context.aws_request_id if context else str(uuid.uuid4())]. *)
Definition request_id_of (E : env) (context : option lambda_context) : string :=
  match context with
  | Some c => aws_request_id c
  | None => uuid4 E
  end.

(** The item [ingest_event] builds for the table. *)
Definition make_item (E : env) (payload : EventPayload) (request_id : string)
    : dict :=
  let pk := "DEVICE#" +:+ device_id payload in
  let sk := "TS#" +:+ str_of_int (ts payload) in
  let item :=
    [("PK", PStr pk);
     ("SK", PStr sk);
     ("device_id", PStr (device_id payload));
     ("type", PStr (type payload));
     ("value", PDecimal (DecimalOfFloat (value payload)));
     ("ts", PInt (ts payload));
     ("ingested_at",
      PDecimal (DecimalOfFloat
                  (SFmul prec emax (time E)
                     (binary_normalize prec emax 1000 0 false))));
     ("request_id", PStr request_id)] in
  match raw payload with
  | Some r => if truthy (PDict r) then dict_set item "raw" (PDict r) else item
  | None => item
  end.

Definition make_sqs_msg (payload : EventPayload) (request_id : string) : pyval :=
  let pk := "DEVICE#" +:+ device_id payload in
  let sk := "TS#" +:+ str_of_int (ts payload) in
  PDict [("device_id", PStr (device_id payload));
         ("type", PStr (type payload));
         ("value", PFloat (value payload));
         ("ts", PInt (ts payload));
         ("request_id", PStr request_id);
         ("event_id", PStr (pk +:+ ":" +:+ sk))].

(** HTTP POST /events. *)
Definition ingest_event (L : library) (E : env) (event : apigw_event)
    (context : option lambda_context) : M response :=
  let request_id := request_id_of E context in
  try_except (_parse_body L event)
    (λ e, match e with
          | JSONDecodeError msg =>
              Some (ret (_response 400
                           (PDict [("error", PStr "Invalid JSON body");
                                   ("detail", PStr msg)])
                           (Some request_id)))
          | ValidationError errors =>
              Some (ret (_response 400
                           (PDict [("error", PStr "Validation failed");
                                   ("detail", PList (error_dict <$> errors))])
                           (Some request_id)))
          | _ => None
          end)
    (λ payload,
      let item := make_item E payload request_id in
      try_except (put_item E item "SK")
        (λ exc, match exc with
                | ClientError code _ =>
                    if String.eqb code "ConditionalCheckFailedException" then
                      Some (ret (_response 409
                                   (PDict [("message",
                                            PStr "Duplicate event — already stored");
                                           ("request_id", PStr request_id)])
                                   None))
                    else
                      Some (ret (_response 500
                                   (PDict [("error", PStr "Failed to store event")])
                                   (Some request_id)))
                | _ => None
                end)
        (λ _,
          let sqs_msg := make_sqs_msg payload request_id in
          try_except (send_message E sqs_msg)
            (λ exc, match exc with
                    | ClientError _ msg =>
                        Some (ret (_response 500
                                     (PDict [("message", PStr "SQS Enqueue failed,");
                                             ("error", PStr msg)])
                                     None))
                    | _ => None
                    end)
            (λ _,
              ret (_response 201
                     (PDict [("message", PStr "Event ingested");
                             ("device_id", PStr (device_id payload));
                             ("ts", PInt (ts payload));
                             ("request_id", PStr request_id)])
                     None)))).

(** The loop body of [get_device_events]: the three numeric attributes of a
    row are turned back into [float] and [int]. *)
Definition convert_row (L : library) (row : dict) : outcome dict :=
  let get k := match dict_get row k with
               | Some v => Returned v
               | None => Raised (KeyError k)
               end in
  outcome_bind (λ v,
  outcome_bind (λ f,
    let row := dict_set row "value" (PFloat f) in
  outcome_bind (λ v,
  outcome_bind (λ t,
    let row := dict_set row "ts" (PInt t) in
  outcome_bind (λ v,
  outcome_bind (λ i,
    Returned (dict_set row "ingested_at" (PInt i)))
  (py_int v)) (get "ingested_at"))
  (py_int v)) (get "ts"))
  (py_float L v)) (get "value").

Fixpoint convert_rows (L : library) (rows : list dict) : outcome (list dict) :=
  match rows with
  | [] => Returned []
  | row :: rows' =>
      outcome_bind (λ r,
      outcome_bind (λ rs, Returned (r :: rs)) (convert_rows L rows'))
      (convert_row L row)
  end.

(** The key condition [get_device_events] builds from the two bounds, each
    used when it is a non-empty string. *)
Definition make_key_condition (pk : string) (from_ts to_ts : option string)
    : condition :=
  let given (o : option string) := truthy (from_option PStr PNone o) in
  let key_condition := CondEq "PK" pk in
  if given from_ts && given to_ts then
    CondAnd key_condition
      (CondBetween "SK" ("TS#" +:+ default "" from_ts)
         ("TS#" +:+ default "" to_ts))
  else if given from_ts then
    CondAnd key_condition (CondGte "SK" ("TS#" +:+ default "" from_ts))
  else if given to_ts then
    CondAnd key_condition (CondLte "SK" ("TS#" +:+ default "" to_ts))
  else key_condition.

(** HTTP GET /devices/{device_id}/events. *)
Definition get_device_events (L : library) (E : env) (event : apigw_event)
    (context : option lambda_context) : M response :=
  let request_id := request_id_of E context in
  let path_params := default ∅ (pathParameters event) in
  let device_id := strip (default "" (path_params !! "device_id")) in
  if negb (truthy (PStr device_id)) then
    ret (_response 400
           (PDict [("error", PStr "device_id path parameter is required")])
           (Some request_id))
  else
    let query_params := default ∅ (queryStringParameters event) in
    let from_ts := query_params !! "from_ts" in
    let to_ts := query_params !! "to_ts" in
    let* limit := lift (match query_params !! "limit" with
                        | Some s => py_int (PStr s)
                        | None => Returned 100
                        end) in
    let pk := "DEVICE#" +:+ device_id in
    let key_condition := make_key_condition pk from_ts to_ts in
    try_except (query E key_condition limit false)
      (λ exc, match exc with
              | ClientError _ _ =>
                  Some (ret (_response 500
                               (PDict [("error", PStr "Failed to retrieve events")])
                               (Some request_id)))
              | _ => None
              end)
      (λ result,
        let* items := lift (convert_rows L (Items result)) in
        ret (_response 200
               (PDict [("device_id", PStr device_id);
                       ("count", PInt (Z.of_nat (length items)));
                       ("events", PList (PDict <$> items));
                       ("last_evaluated_key",
                        from_option PDict PNone (LastEvaluatedKey result))])
               (Some request_id))).

(** ** Vocabulary of the properties *)

(** What [_parse_body] gives, which does not depend on the world. *)
Definition parse_outcome (L : library) (event : apigw_event) : outcome EventPayload :=
  (_parse_body L event empty_world).1.

(** The calls a computation adds to the record. *)
Definition new_calls (w w' : world) (cs : list call) : Prop :=
  calls w' = (calls w ++ cs)%list.

(** The primary key under which the event of device [d] at time [t] is
    stored. *)
Definition event_key (d : string) (t : Z) : string * string :=
  ("DEVICE#" +:+ d, "TS#" +:+ str_of_int t).

(** What [get_device_events] reads from the request: the device it looks
    up, the page size, and the key condition it builds. *)
Definition requested_device (event : apigw_event) : string :=
  strip (default "" (default ∅ (pathParameters event) !! "device_id")).

Definition requested_limit (event : apigw_event) : outcome Z :=
  match default ∅ (queryStringParameters event) !! "limit" with
  | Some s => py_int (PStr s)
  | None => Returned 100
  end.

Definition requested_condition (event : apigw_event) : condition :=
  make_key_condition ("DEVICE#" +:+ requested_device event)
    (default ∅ (queryStringParameters event) !! "from_ts")
    (default ∅ (queryStringParameters event) !! "to_ts").

(** What a [query] call raises. *)
Definition query_raised (E : env) (Limit : Z) : option exn :=
  match query_fault E with
  | Some e => Some e
  | None => if Limit <? 1 then Some (OtherException "ParamValidationError")
            else None
  end.

(** ** Reading a response *)

(** The HTTP status of what a handler did, when it returned. *)
Definition status_of (o : outcome response) : option Z :=
  match o with
  | Returned r => Some (statusCode r)
  | Raised _ => None
  end.

(** A field of the response body. *)
Definition body_field (r : response) (k : string) : option pyval :=
  match resp_body r with
  | PDict d => dict_get d k
  | _ => None
  end.

(** The [events] of a query response. *)
Definition events_of (r : response) : list pyval :=
  match body_field r "events" with
  | Some (PList l) => l
  | _ => []
  end.

(** The integer [ts] of a returned event. *)
Definition event_ts (v : pyval) : option Z :=
  match v with
  | PDict d => match dict_get d "ts" with Some (PInt t) => Some t | _ => None end
  | _ => None
  end.

(** The fields named in the [detail] of a validation response. *)
Definition detail_fields (r : response) : list pyval :=
  match body_field r "detail" with
  | Some (PList l) =>
      l ≫= (λ e, match e with
                  | PDict d => match dict_get d "loc" with
                               | Some (PList loc) => loc
                               | _ => []
                               end
                  | _ => []
                  end)
  | _ => []
  end.

Definition is_invalid {A} (c : checked A) : bool :=
  match c with Invalid _ => true | Valid _ => false end.

(** The fields of [data] for which the schema reports an error, in
    declaration order. *)
Definition violated_fields (L : library) (data : dict) : list string :=
  (if is_invalid (check_device_id data) then ["device_id"] else []) ++
  (if is_invalid (check_type data) then ["type"] else []) ++
  (if is_invalid (check_value L data) then ["value"] else []) ++
  (if is_invalid (check_ts L data) then ["ts"] else []) ++
  (if is_invalid (check_raw data) then ["raw"] else []).

(** ** The field rules of the specification

    Section 4.1 of the specification gives one rule for each field of the
    input mapping.  They are written here on the decoded object, in the
    words of the specification and without the validators of
    [EventPayload], to be compared with what the schema reports. *)

(** What parses as a number and what parses as an integer, read as the lax
    conversions of the validation library: a number of JSON ([true] and
    [false] among them, an integer when it fits a float, a float for an
    integer when it is whole), or a string the decoder takes for one. *)
Definition number_of (L : library) (v : pyval) : option pyfloat :=
  match v with
  | PFloat f => Some f
  | PInt z => float_of_int z
  | PBool b => float_of_int (if b then 1 else 0)
  | PStr s => str_as_float L s
  | _ => None
  end.

Definition integer_of (L : library) (v : pyval) : option Z :=
  match v with
  | PInt z => Some z
  | PBool b => Some (if b then 1 else 0)
  | PFloat f => if float_is_integral f then float_trunc f else None
  | PStr s => str_as_int L s
  | _ => None
  end.

Definition is_finite (f : pyfloat) : bool :=
  match f with
  | S754_zero _ | S754_finite _ _ _ => true
  | _ => false
  end.

(** [device_id], [type]: required, non-empty after trimming whitespace,
    within length bounds. *)
Definition breaks_text_rule (max_length : nat) (o : option pyval) : bool :=
  match o with
  | Some (PStr s) =>
      String.eqb (strip s) "" || (max_length <? String.length s)%nat
  | _ => true
  end.

(** [value]: required, must parse as a finite number. *)
Definition breaks_finite_number_rule (L : library) (o : option pyval) : bool :=
  match o ≫= number_of L with
  | Some f => negb (is_finite f)
  | None => true
  end.

(** The rule of [value] without the word finite: required, must parse as a
    number. *)
Definition breaks_number_rule (L : library) (o : option pyval) : bool :=
  match o ≫= number_of L with
  | Some _ => false
  | None => true
  end.

(** [ts]: required, must parse as an integer, and must be strictly
    positive. *)
Definition breaks_ts_rule (L : library) (o : option pyval) : bool :=
  match o ≫= integer_of L with
  | Some t => t <=? 0
  | None => true
  end.

(** [raw]: optional; when present it is null or an object (the [raw?:
    object] of section 6). *)
Definition breaks_raw_rule (o : option pyval) : bool :=
  match o with
  | None | Some PNone | Some (PDict _) => false
  | Some _ => true
  end.

(** The fields of [data] that break their rule, in the order of the
    specification, for a given rule of [value]. *)
Definition fields_breaking (value_rule : option pyval → bool) (L : library)
    (data : dict) : list string :=
  (if breaks_text_rule 128 (dict_get data "device_id") then ["device_id"] else [])
  ++ (if breaks_text_rule 64 (dict_get data "type") then ["type"] else [])
  ++ (if value_rule (dict_get data "value") then ["value"] else [])
  ++ (if breaks_ts_rule L (dict_get data "ts") then ["ts"] else [])
  ++ (if breaks_raw_rule (dict_get data "raw") then ["raw"] else []).

(** The violated fields by the rules as the specification words them, and
    by the same rules with a [value] that need not be finite. *)
Definition spec_violations (L : library) (data : dict) : list string :=
  fields_breaking (breaks_finite_number_rule L) L data.

Definition schema_violations (L : library) (data : dict) : list string :=
  fields_breaking (breaks_number_rule L) L data.

(** The integer [ts] attribute of a stored item. *)
Definition item_ts (it : dict) : option Z :=
  match dict_get it "ts" with
  | Some (PInt t) => Some t
  | _ => None
  end.

(** An item as [ingest_event] writes it: it sits under the key made of its
    own [PK] and [SK], which is the key of its [device_id] and its positive
    [ts]. *)
Definition keyed_item (k : string * string) (it : dict) : bool :=
  match str_attr it "device_id", item_ts it with
  | Some d, Some t =>
      bool_decide (item_key it = Some k) && bool_decide (k = event_key d t)
      && (0 <? t)
  | _, _ => false
  end.

(** Whether the numeric attributes of a stored item can be read back. *)
Definition converts (L : library) (it : dict) : bool :=
  match convert_row L (row_from_store it) with
  | Returned _ => true
  | Raised _ => false
  end.

(** A table of events: every record is a keyed item the read path can
    convert. *)
Definition event_table (L : library) (tbl : gmap (string * string) dict) : Prop :=
  forallb (λ kv, keyed_item kv.1 kv.2 && converts L kv.2) (map_to_list tbl)
  = true.

(** [t] has [n] decimal digits. *)
Definition has_digits (n : nat) (t : Z) : bool :=
  (0 <? n)%nat && (10 ^ (Z.of_nat n - 1) <=? t) && (t <? 10 ^ Z.of_nat n).

(** Every record of device [d] has a timestamp of [n] digits. *)
Definition partition_digits (n : nat) (d : string)
    (tbl : gmap (string * string) dict) : Prop :=
  forallb (λ kv, if String.eqb kv.1.1 ("DEVICE#" +:+ d)
                 then has_digits n (default 0 (item_ts kv.2)) else true)
    (map_to_list tbl) = true.

(** [t] is within the optional bounds, both inclusive. *)
Definition in_range (lo hi : option Z) (t : Z) : Prop :=
  from_option (λ a, a ≤ t) True lo ∧ from_option (λ b, t ≤ b) True hi.

(** Two returned events, the first strictly newer than the second. *)
Definition newer (v1 v2 : pyval) : Prop :=
  ∃ t1 t2, event_ts v1 = Some t1 ∧ event_ts v2 = Some t2 ∧ t2 < t1.

(** The worlds the handlers can produce, starting from an empty table. *)
Inductive reachable (L : library) : world → Prop :=
| reach_empty : reachable L empty_world
| reach_ingest E event context w :
    reachable L w → reachable L (ingest_event L E event context w).2
| reach_query E event context w :
    reachable L w → reachable L (get_device_events L E event context w).2.

(** [x] is written with [k] decimal digits ([0] being written with none
    inside [pretty_N_go]). *)
Definition ndigits (k : nat) (x : N) : Prop :=
  match k with
  | O => x = 0%N
  | S k' => (10 ^ N.of_nat k' ≤ x < 10 ^ N.of_nat k)%N
  end.

(** The event [get_device_events] returns for a stored item. *)
Definition returned_event (L : library) (it : dict) : pyval :=
  match convert_row L (row_from_store it) with
  | Returned row => PDict row
  | Raised _ => PNone
  end.

(** A table in which every record is a keyed item. *)
Definition keyed_table (tbl : gmap (string * string) dict) : Prop :=
  map_Forall (λ k it, keyed_item k it = true) tbl.

(** ** Sample requests *)

(** Request bodies are written with [json_object]: the JSON text of an
    object whose member values are already JSON text. *)
Definition dquote : string := String "034" EmptyString.
Definition json_string (s : string) : string := dquote +:+ s +:+ dquote.

Fixpoint json_members (kvs : list (string * string)) : string :=
  match kvs with
  | [] => ""
  | [(k, v)] => json_string k +:+ ":" +:+ v
  | (k, v) :: kvs' => json_string k +:+ ":" +:+ v +:+ "," +:+ json_members kvs'
  end.

Definition json_object (kvs : list (string * string)) : string :=
  "{" +:+ json_members kvs +:+ "}".

(** 21.5 as a binary64. *)
Definition f21_5 : pyfloat := S754_finite false 6051711999279104 (-48).

(** The body of a reading of 21.5 by device [d] at time [t], and what
    [json.loads] makes of it. *)
Definition reading_body (d : string) (t : Z) : string :=
  json_object [("device_id", json_string d); ("type", json_string "temp");
               ("value", "21.5"); ("ts", str_of_int t)].

Definition reading_data (d : string) (t : Z) : pyval :=
  PDict [("device_id", PStr d); ("type", PStr "temp");
         ("value", PFloat f21_5); ("ts", PInt t)].

(** The same reading with a [raw] member. *)
Definition reading_raw_body (d : string) (t : Z) (raw_text : string) : string :=
  json_object [("device_id", json_string d); ("type", json_string "temp");
               ("value", "21.5"); ("ts", str_of_int t); ("raw", raw_text)].

Definition reading_raw_data (d : string) (t : Z) (r : pyval) : pyval :=
  PDict [("device_id", PStr d); ("type", PStr "temp");
         ("value", PFloat f21_5); ("ts", PInt t); ("raw", r)].

(** A body without [device_id] and with [ts = -1]. *)
Definition bad_body : string :=
  json_object [("type", json_string "temp"); ("value", "21.5"); ("ts", "-1")].

Definition bad_data : pyval :=
  PDict [("type", PStr "temp"); ("value", PFloat f21_5); ("ts", PInt (-1))].

(** The bodies used in the examples, each with the value [json.loads]
    returns on it. *)
Definition sample_bodies : list (string * pyval) :=
  [(reading_body "d1" 1000, reading_data "d1" 1000);
   (reading_body "d1" 9, reading_data "d1" 9);
   (reading_body "d1" 10, reading_data "d1" 10);
   (reading_body "d2" 1000, reading_data "d2" 1000);
   (reading_body " d1" 1000, reading_data " d1" 1000);
   (reading_raw_body "d1" 1000 "{}", reading_raw_data "d1" 1000 (PDict []));
   (reading_raw_body "d1" 2000 (json_object [("unit", json_string "C")]),
    reading_raw_data "d1" 2000 (PDict [("unit", PStr "C")]));
   (bad_body, bad_data)]
  ++ ((λ t, (reading_body "d1" t, reading_data "d1" t)) <$> seqZ 100 101).

Fixpoint assoc {A} (l : list (string * A)) (k : string) : option A :=
  match l with
  | [] => None
  | (k', v) :: l' => if String.eqb k' k then Some v else assoc l' k
  end.

(** A [library] that agrees with the real decoders on the sample bodies; on
    any other body it answers as [json.loads] does on the text [not-json]. *)
Definition sample_library : library := {|
  json_loads := λ s,
    match assoc sample_bodies s with
    | Some v => inr v
    | None => inl "Expecting value: line 1 column 1 (char 0)"
    end;
  float_of_str := λ _, None;
  str_as_int := λ _, None;
  str_as_float := λ _, None;
|}.

(** 2^30 seconds on the clock, no fault. *)
Definition sample_env (rid : string) : env := {|
  uuid4 := rid;
  time := S754_finite false 4503599627370496 (-22);
  message_id := "msg-1";
  put_fault := None;
  query_fault := None;
  send_fault := None;
|}.

Definition http_post (body_text : string) : apigw_event :=
  {| body := Some (PStr body_text); pathParameters := None;
     queryStringParameters := None |}.

Definition http_get (d : string) (params : list (string * string)) : apigw_event :=
  {| body := None; pathParameters := Some {[ "device_id" := d ]};
     queryStringParameters :=
       match params with [] => None | _ => Some (list_to_map params) end |}.

Definition sample_context : option lambda_context :=
  Some {| aws_request_id := "req-1" |}.

(** The world after the listed bodies have been posted, one after the other. *)
Definition after_posts (bodies : list string) : world :=
  foldl (λ w b, (ingest_event sample_library (sample_env "req-0") (http_post b)
                   sample_context w).2) empty_world bodies.

(** Two devices with one reading each, the page of the first device, and the
    event on that page. *)
Definition two_devices : world :=
  after_posts [reading_body "d1" 1000; reading_body "d2" 1000].

Definition page_of (o : outcome response) : response :=
  match o with
  | Returned r => r
  | Raised _ => _response 0 PNone None
  end.

Definition d1_page : response := Eval vm_compute in
  page_of (get_device_events sample_library (sample_env "u-1")
             (http_get "d1" []) sample_context two_devices).1.

Definition d1_event : pyval := Eval vm_compute in hd PNone (events_of d1_page).

(** Three readings of one device, and a request for those between 120 and
    200. *)
Definition three_readings : world :=
  after_posts (reading_body "d1" <$> [100; 150; 200]).

Definition range_request : apigw_event :=
  http_get "d1" [("from_ts", "120"); ("to_ts", "200")].

(** The readings at 100, 101, ..., 200 of one device, a request for all of
    them, and the response to it. *)
Definition hundred_and_one : world :=
  after_posts (reading_body "d1" <$> seqZ 100 101).

Definition full_range_request : apigw_event :=
  http_get "d1" [("from_ts", "100"); ("to_ts", "200")].

Definition first_hundred : response := Eval vm_compute in
  page_of (get_device_events sample_library (sample_env "u-1")
             full_range_request sample_context hundred_and_one).1.

(** ** More vocabulary and samples *)

(** The [(device_id, ts)] key a queue message is about. *)
Definition msg_key (msg : pyval) : option (string * string) :=
  match msg with
  | PDict d =>
      match dict_get d "device_id", dict_get d "ts" with
      | Some (PStr dev), Some (PInt t) => Some (event_key dev t)
      | _, _ => None
      end
  | _ => None
  end.

(** The store, then the queue, answering with a service error. *)
Definition store_down_env (rid : string) : env := {|
  uuid4 := rid;
  time := time (sample_env rid);
  message_id := "msg-1";
  put_fault := Some (ClientError "ProvisionedThroughputExceededException"
                       "The level of configured provisioned throughput was exceeded");
  query_fault := Some (ClientError "ProvisionedThroughputExceededException"
                         "The level of configured provisioned throughput was exceeded");
  send_fault := None;
|}.

Definition queue_down_env (rid : string) : env := {|
  uuid4 := rid;
  time := time (sample_env rid);
  message_id := "msg-1";
  put_fault := None;
  query_fault := None;
  send_fault := Some (ClientError "AWS.SimpleQueueService.NonExistentQueue"
                        "The specified queue does not exist.");
|}.

(** The payload of the reading of 21.5 by [d] at [t]. *)
Definition reading_payload (d : string) (t : Z) : EventPayload :=
  {| device_id := d; type := "temp"; value := f21_5; ts := t; raw := None |}.

(** The clock reading [ingest_event] stores, [time() * 1000]. *)
Definition ingested_at_ms (E : env) : pyfloat :=
  SFmul prec emax (time E) (binary_normalize prec emax 1000 0 false).

(** A request for the events of [d] at exactly [t]. *)
Definition point_request (d : string) (t : Z) : apigw_event :=
  http_get d [("from_ts", str_of_int t); ("to_ts", str_of_int t)].

(** The readings at 9 and at 10 of one device. *)
Definition nine_and_ten : world :=
  after_posts [reading_body "d1" 9; reading_body "d1" 10].

(** The device ["d1"] and the device [" d1"] with one reading each, the page
    a request for [" d1"] gets, and the row on that page. *)
Definition padded_world : world :=
  after_posts [reading_body "d1" 1000; reading_body " d1" 1000].

Definition padded_page : response := Eval vm_compute in
  page_of (get_device_events sample_library (sample_env "u-1")
             (http_get " d1" []) sample_context padded_world).1.

Definition padded_row : dict := Eval vm_compute in
  match hd PNone (events_of padded_page) with
  | PDict row => row
  | _ => []
  end.

(** A body whose [device_id] is all whitespace and whose [ts] is 0. *)
Definition blank_body : string :=
  json_object [("device_id", json_string "   "); ("type", json_string "temp");
               ("value", "21.5"); ("ts", "0")].

Definition blank_data : dict :=
  [("device_id", PStr "   "); ("type", PStr "temp");
   ("value", PFloat f21_5); ("ts", PInt 0)].

(** [sample_library] with [blank_body] decoded as well. *)
Definition sample_library' : library := {|
  json_loads := λ s, if String.eqb s blank_body then inr (PDict blank_data)
                     else json_loads sample_library s;
  float_of_str := float_of_str sample_library;
  str_as_int := str_as_int sample_library;
  str_as_float := str_as_float sample_library;
|}.

(** A body without [device_id] whose [value] is written [1e400], which
    [json.loads] reads as the float infinity. *)
Definition overflow_body : string :=
  json_object [("type", json_string "temp"); ("value", "1e400"); ("ts", "1000")].

Definition overflow_data : dict :=
  [("type", PStr "temp"); ("value", PFloat (S754_infinity false));
   ("ts", PInt 1000)].

(** [sample_library] with [overflow_body] decoded as well. *)
Definition overflow_library : library := {|
  json_loads := λ s, if String.eqb s overflow_body then inr (PDict overflow_data)
                     else json_loads sample_library s;
  float_of_str := float_of_str sample_library;
  str_as_int := str_as_int sample_library;
  str_as_float := str_as_float sample_library;
|}.

(** * Properties *)

Local Open Scope list_scope.

(** ** The monad and the collaborators *)

Lemma parse_body_pure L event w :
  _parse_body L event w = (parse_outcome L event, w).
Proof.
  unfold parse_outcome, _parse_body.
  destruct (body event) as [[]|]; try reflexivity.
  destruct (json_loads L s) as [msg|[]]; try reflexivity.
  destruct (EventPayload_init L kvs); reflexivity.
Qed.

Lemma put_item_spec E it a w :
  ∃ raised,
    new_calls w (put_item E it a w).2 [CallPutItem it a raised] ∧
    match raised with
    | Some e => (put_item E it a w).1 = Raised e
    | None => (put_item E it a w).1 = Returned ()
    end.
Proof.
  unfold put_item, new_calls.
  destruct (put_fault E) as [e|]; [exists (Some e); done|].
  destruct (item_key it) as [k|]; [|eexists (Some _); done].
  destruct (table w !! k) as [old|]; [|exists None; done].
  destruct (dict_get old a); [eexists (Some _)|exists None]; done.
Qed.

Lemma send_message_spec E msg w :
  new_calls w (send_message E msg w).2 [CallSendMessage msg (send_fault E)].
Proof. unfold send_message, new_calls. destruct (send_fault E); done. Qed.

(** C4. Write-then-publish: the collaborator calls of one [ingest_event] are
    none at all (the request was rejected before the store), or one
    [put_item] that raised (duplicate or store failure) and nothing after
    it, or one [put_item] that returned followed by one [send_message].  So a
    publish is only ever attempted after the insert was accepted. *)
Theorem ingest_event_write_then_publish L E event context w :
  ∃ cs, new_calls w (ingest_event L E event context w).2 cs ∧
    (cs = []
     ∨ (∃ item exc, cs = [CallPutItem item "SK" (Some exc)])
     ∨ (∃ item msg r, cs = [CallPutItem item "SK" None; CallSendMessage msg r])).
Proof.
  unfold ingest_event, try_except. rewrite parse_body_pure.
  destruct (parse_outcome L event) as [payload|e].
  - set (item := make_item E payload _).
    destruct (put_item_spec E item "SK" w) as [raised [Hc Hr]].
    destruct (put_item E item "SK" w) as [o w1]; simpl in *.
    destruct raised as [exc|]; subst o.
    + exists [CallPutItem item "SK" (Some exc)]. split; [|eauto].
      destruct exc; try done. by destruct (String.eqb _ _).
    + set (msg := make_sqs_msg payload _).
      pose proof (send_message_spec E msg w1) as Hs.
      exists [CallPutItem item "SK" None; CallSendMessage msg (send_fault E)].
      split; [|eauto 10].
      unfold new_calls in *.
      destruct (send_message E msg w1) as [[mid|exc] w2]; simpl in *.
      * rewrite Hs, Hc, <-app_assoc. done.
      * assert (calls w2 = calls w ++ [CallPutItem item "SK" None; CallSendMessage msg (send_fault E)]) as Hw
          by (rewrite Hs, Hc, <-app_assoc; done).
        by destruct exc.
  - exists []. split; [|eauto]. unfold new_calls. rewrite app_nil_r.
    by destruct e.
Qed.

(** ** Dictionaries and items *)

Lemma dict_get_set_eq d k v : dict_get (dict_set d k v) k = Some v.
Proof.
  induction d as [|[k' v'] d IH]; simpl.
  - by rewrite decide_True.
  - destruct (decide (k' = k)); simpl.
    + by rewrite decide_True.
    + by rewrite decide_False.
Qed.

Lemma dict_get_set_ne d k k' v :
  k ≠ k' → dict_get (dict_set d k v) k' = dict_get d k'.
Proof.
  intros Hne. induction d as [|[k0 v0] d IH]; simpl.
  - by rewrite decide_False.
  - destruct (decide (k0 = k)) as [->|]; simpl.
    + by rewrite !decide_False.
    + destruct (decide (k0 = k')); done.
Qed.

(** The attributes [make_item] always sets. *)
Lemma make_item_get E p rid k :
  k ≠ "raw" →
  dict_get (make_item E p rid) k =
  dict_get [("PK", PStr ("DEVICE#" +:+ device_id p));
            ("SK", PStr ("TS#" +:+ str_of_int (ts p)));
            ("device_id", PStr (device_id p));
            ("type", PStr (type p));
            ("value", PDecimal (DecimalOfFloat (value p)));
            ("ts", PInt (ts p));
            ("ingested_at",
             PDecimal (DecimalOfFloat
                         (SFmul prec emax (time E)
                            (binary_normalize prec emax 1000 0 false))));
            ("request_id", PStr rid)] k.
Proof.
  intros Hk. unfold make_item.
  destruct (raw p) as [r|]; [|done].
  destruct (truthy (PDict r)); [|done].
  by rewrite dict_get_set_ne.
Qed.

Lemma make_item_raw E p rid :
  dict_get (make_item E p rid) "raw" =
  match raw p with
  | Some (x :: r) => Some (PDict (x :: r))
  | _ => None
  end.
Proof.
  unfold make_item. destruct (raw p) as [[|x r]|]; try done;
    simpl truthy; cbv iota; by rewrite dict_get_set_eq.
Qed.

Lemma item_key_make_item E p rid :
  item_key (make_item E p rid) = Some (event_key (device_id p) (ts p)).
Proof. unfold item_key. by rewrite !make_item_get. Qed.

(** ** Idempotent insert *)

(** C1. Two submissions with the same [(device_id, ts)], the first to a
    table that holds no record for the pair, with the store and the queue
    answering: the first returns 201, the second 409, and the table ends up
    as the first submission left it, that is with exactly one more record,
    the first one, under the pair's key. *)
Theorem ingest_event_idempotent L E1 E2 ev1 ev2 ctx1 ctx2 p1 p2 w0 :
  parse_outcome L ev1 = Returned p1 →
  parse_outcome L ev2 = Returned p2 →
  device_id p2 = device_id p1 →
  ts p2 = ts p1 →
  table w0 !! event_key (device_id p1) (ts p1) = None →
  put_fault E1 = None → send_fault E1 = None → put_fault E2 = None →
  let r1 := ingest_event L E1 ev1 ctx1 w0 in
  let r2 := ingest_event L E2 ev2 ctx2 r1.2 in
  let item1 := make_item E1 p1 (request_id_of E1 ctx1) in
  status_of r1.1 = Some 201
  ∧ status_of r2.1 = Some 409
  ∧ table r1.2 = <[event_key (device_id p1) (ts p1) := item1]> (table w0)
  ∧ table r2.2 = table r1.2
  ∧ size (table r2.2) = S (size (table w0))
  ∧ table r2.2 !! event_key (device_id p1) (ts p1) = Some item1.
Proof.
  intros Hp1 Hp2 Hd Ht Hfresh Hput1 Hsend1 Hput2. simpl.
  assert (ingest_event L E1 ev1 ctx1 w0 =
    (Returned (_response 201
       (PDict [("message", PStr "Event ingested");
               ("device_id", PStr (device_id p1)); ("ts", PInt (ts p1));
               ("request_id", PStr (request_id_of E1 ctx1))]) None),
     {| table := <[event_key (device_id p1) (ts p1)
                   := make_item E1 p1 (request_id_of E1 ctx1)]> (table w0);
        queue := queue w0 ++ [make_sqs_msg p1 (request_id_of E1 ctx1)];
        calls := (calls w0 ++ [CallPutItem (make_item E1 p1 (request_id_of E1 ctx1)) "SK" None])
                 ++ [CallSendMessage (make_sqs_msg p1 (request_id_of E1 ctx1)) None] |}))
    as ->.
  { unfold ingest_event, try_except. rewrite parse_body_pure, Hp1.
    unfold put_item. rewrite Hput1, item_key_make_item, Hfresh. simpl.
    unfold send_message. rewrite Hsend1. done. }
  simpl.
  set (w1 := {| table := _ |}).
  assert (table w1 !! event_key (device_id p1) (ts p1)
          = Some (make_item E1 p1 (request_id_of E1 ctx1))) as Hstored
    by apply lookup_insert_eq.
  assert (ingest_event L E2 ev2 ctx2 w1 =
    (Returned (_response 409
       (PDict [("message", PStr "Duplicate event — already stored");
               ("request_id", PStr (request_id_of E2 ctx2))]) None),
     log_call (CallPutItem (make_item E2 p2 (request_id_of E2 ctx2)) "SK"
                 (Some (ClientError "ConditionalCheckFailedException"
                          "The conditional request failed"))) w1))
    as ->.
  { unfold ingest_event, try_except. rewrite parse_body_pure, Hp2.
    unfold put_item. rewrite Hput2, item_key_make_item, Hd, Ht, Hstored.
    rewrite make_item_get by done. done. }
  simpl. repeat split; try done.
  by apply map_size_insert_None.
Qed.

Lemma ingest_event_idempotent_witness :
  let ev := http_post (reading_body "d1" 1000) in
  let r1 := ingest_event sample_library (sample_env "u-1") ev sample_context
              empty_world in
  let r2 := ingest_event sample_library (sample_env "u-2") ev sample_context
              r1.2 in
  status_of r1.1 = Some 201 ∧ status_of r2.1 = Some 409
  ∧ size (table r2.2) = 1%nat.
Proof.
  intros ev r1 r2.
  pose proof (ingest_event_idempotent sample_library
                (sample_env "u-1") (sample_env "u-2") ev ev
                sample_context sample_context
                {| device_id := "d1"; type := "temp"; value := f21_5;
                   ts := 1000; raw := None |}
                {| device_id := "d1"; type := "temp"; value := f21_5;
                   ts := 1000; raw := None |}
                empty_world
                eq_refl eq_refl eq_refl eq_refl eq_refl eq_refl eq_refl eq_refl)
    as (H1 & H2 & _ & _ & H5 & _).
  exact (conj H1 (conj H2 H5)).
Defined.

(** ** The query handler, step by step *)

Lemma truthy_str s : s ≠ "" → truthy (PStr s) = true.
Proof.
  intros Hs. simpl. destruct (String.eqb_spec s ""); [done|reflexivity].
Qed.

(** Past its two early exits, [get_device_events] is one [query] call. *)
Lemma get_device_events_query L E event context w lim :
  requested_device event ≠ "" →
  requested_limit event = Returned lim →
  get_device_events L E event context w =
  try_except (query E (requested_condition event) lim false)
    (λ exc, match exc with
            | ClientError _ _ =>
                Some (ret (_response 500
                             (PDict [("error", PStr "Failed to retrieve events")])
                             (Some (request_id_of E context))))
            | _ => None
            end)
    (λ result,
      let* items := lift (convert_rows L (Items result)) in
      ret (_response 200
             (PDict [("device_id", PStr (requested_device event));
                     ("count", PInt (Z.of_nat (length items)));
                     ("events", PList (PDict <$> items));
                     ("last_evaluated_key",
                      from_option PDict PNone (LastEvaluatedKey result))])
             (Some (request_id_of E context)))) w.
Proof.
  intros Hd Hl. unfold get_device_events.
  fold (requested_device event). rewrite (truthy_str _ Hd). cbn [negb].
  fold (requested_limit event). rewrite Hl.
  unfold bind at 1, lift at 1. reflexivity.
Qed.

Lemma get_device_events_calls L E event context w lim :
  requested_device event ≠ "" →
  requested_limit event = Returned lim →
  new_calls w (get_device_events L E event context w).2
    [CallQuery (requested_condition event) lim false (query_raised E lim)].
Proof.
  intros Hd Hl. rewrite (get_device_events_query _ _ _ _ _ lim Hd Hl).
  unfold try_except, query, query_raised, new_calls.
  destruct (query_fault E) as [e|].
  - by destruct e.
  - destruct (lim <? 1); [done|].
    unfold bind, lift, ret. by destruct (convert_rows _ _).
Qed.

(** ** Faults of the code *)

(** C5. Errors that leave the handlers unhandled: [ingest_event] on a
    request with no body, or with a body that is not a string, raises the
    [ValueError] of [_parse_body], for which it has no [except] clause;
    [get_device_events] on a [limit] that is not an integer raises the
    [ValueError] of [int()], outside any [try]. *)
Theorem handlers_let_errors_escape L E context w :
  (∀ pp qp,
     ingest_event L E {| body := None; pathParameters := pp;
                         queryStringParameters := qp |} context w
     = (Raised (ValueError "Message Body is required"), w))
  ∧ (∀ d pp qp,
     ingest_event L E {| body := Some (PDict d); pathParameters := pp;
                         queryStringParameters := qp |} context w
     = (Raised (ValueError "Message Body is required"), w))
  ∧ get_device_events L E (http_get "d1" [("limit", "abc")]) context w
    = (Raised (ValueError "invalid literal for int() with base 10"), w).
Proof. repeat split. Qed.

(** C6. The query parameters are not validated: a [from_ts] that is not a
    number and a negative [to_ts] go into the key condition as they are, a
    negative [limit] goes to the store as the page size, and with the store
    answering the first request gets a 200. *)
Theorem query_parameters_reach_the_store L E context w :
  new_calls w
    (get_device_events L E
       (http_get "d1" [("from_ts", "abc"); ("to_ts", "-5")]) context w).2
    [CallQuery (CondAnd (CondEq "PK" "DEVICE#d1")
                  (CondBetween "SK" "TS#abc" "TS#-5"))
       100 false (query_raised E 100)]
  ∧ new_calls w
      (get_device_events L E (http_get "d1" [("limit", "-5")]) context w).2
      [CallQuery (CondEq "PK" "DEVICE#d1") (-5) false (query_raised E (-5))]
  ∧ status_of
      (get_device_events sample_library (sample_env "u-1")
         (http_get "d1" [("from_ts", "abc"); ("to_ts", "-5")])
         sample_context empty_world).1 = Some 200.
Proof.
  split; [|split].
  - by apply (get_device_events_calls L E
                (http_get "d1" [("from_ts", "abc"); ("to_ts", "-5")])).
  - by apply (get_device_events_calls L E (http_get "d1" [("limit", "-5")])).
  - vm_compute. reflexivity.
Qed.

(** C7. The response to a failed publish has no [request_id]: with the queue
    answering a [ClientError], a fresh reading is stored and the handler
    returns the 500 built by [_response] without a request id, whose body has
    the two fields [message] and [error] only. *)
Theorem publish_failure_response_lacks_request_id rid code msg :
  let E := {| uuid4 := "u-1"; time := time (sample_env "u-1");
              message_id := "msg-1"; put_fault := None; query_fault := None;
              send_fault := Some (ClientError code msg) |} in
  let r := ingest_event sample_library E (http_post (reading_body "d1" 1000))
             (Some {| aws_request_id := rid |}) empty_world in
  r.1 = Returned (_response 500
                    (PDict [("message", PStr "SQS Enqueue failed,");
                            ("error", PStr msg)]) None)
  ∧ (∃ resp, r.1 = Returned resp ∧ statusCode resp = 500
             ∧ body_field resp "request_id" = None)
  ∧ is_Some (table r.2 !! event_key "d1" 1000).
Proof.
  intros E r. split; [reflexivity|]. split.
  - eexists. split; [reflexivity|]. split; reflexivity.
  - vm_compute. eauto.
Qed.

(** C2. Newest first fails across digit counts: after the readings at
    [ts = 9] and [ts = 10] of one device are stored, the query returns them
    with [ts = 9] first, because ["TS#9"] sorts after ["TS#10"]. *)
Theorem events_not_in_descending_ts_order :
  let w := after_posts [reading_body "d1" 9; reading_body "d1" 10] in
  let r := get_device_events sample_library (sample_env "u-1")
             (http_get "d1" []) sample_context w in
  status_of r.1 = Some 200
  ∧ (∃ resp, r.1 = Returned resp
             ∧ event_ts <$> events_of resp = [Some 9; Some 10])
  ∧ String.ltb "TS#10" "TS#9" = true.
Proof.
  intros w r. split; [vm_compute; reflexivity|]. split; [|reflexivity].
  eexists. split; [vm_compute; reflexivity|]. vm_compute. reflexivity.
Qed.

(** ** Validation *)

Lemma after_validator_loc {A} field (to_val : A → pyval) f c e :
  (∀ e', c = Invalid e' → err_loc e' = field) →
  after_validator field to_val f c = Invalid e → err_loc e = field.
Proof.
  intros Hc. unfold after_validator. destruct c as [a|e'].
  - destruct (f a); intros [= <-]; done.
  - intros [= <-]. by apply Hc.
Qed.

Lemma str_field_loc field lo hi data e :
  str_field field lo hi data = Invalid e → err_loc e = field.
Proof.
  unfold str_field.
  destruct (dict_get data field) as [[]|]; try (intros [= <-]; done).
  repeat case_match; intros [= <-]; done.
Qed.

Lemma int_field_loc L field data e :
  int_field L field data = Invalid e → err_loc e = field.
Proof.
  unfold int_field.
  destruct (dict_get data field) as [[]|]; repeat case_match;
    intros [= <-]; done.
Qed.

Lemma float_field_loc L field data e :
  float_field L field data = Invalid e → err_loc e = field.
Proof.
  unfold float_field.
  destruct (dict_get data field) as [[]|]; repeat case_match;
    intros [= <-]; done.
Qed.

Lemma optional_dict_field_loc field data e :
  optional_dict_field field data = Invalid e → err_loc e = field.
Proof.
  unfold optional_dict_field.
  destruct (dict_get data field) as [[]|]; intros [= <-]; done.
Qed.

Lemma errors_of_loc {A} (c : checked A) field :
  (∀ e, c = Invalid e → err_loc e = field) →
  err_loc <$> errors_of c = if is_invalid c then [field] else [].
Proof. destruct c as [a|e]; simpl; [done|]. intros H. by rewrite (H e). Qed.

(** A payload comes out of [EventPayload] exactly when every field passes,
    and then it holds what the fields validated to. *)
Lemma EventPayload_init_inr L data p :
  EventPayload_init L data = inr p →
  check_device_id data = Valid (device_id p)
  ∧ check_type data = Valid (type p)
  ∧ check_value L data = Valid (value p)
  ∧ check_ts L data = Valid (ts p)
  ∧ check_raw data = Valid (raw p).
Proof.
  unfold EventPayload_init.
  destruct (check_device_id data), (check_type data), (check_value L data),
    (check_ts L data), (check_raw data); intros [= <-]; done.
Qed.

(** Otherwise the error list names the violated fields, all of them, in
    declaration order. *)
Lemma EventPayload_init_inl L data :
  violated_fields L data ≠ [] →
  ∃ errs, EventPayload_init L data = inl errs
          ∧ err_loc <$> errs = violated_fields L data.
Proof.
  intros Hv.
  exists (errors_of (check_device_id data) ++ errors_of (check_type data)
          ++ errors_of (check_value L data) ++ errors_of (check_ts L data)
          ++ errors_of (check_raw data)).
  split.
  - unfold EventPayload_init, violated_fields in *.
    destruct (check_device_id data), (check_type data), (check_value L data),
      (check_ts L data), (check_raw data); done.
  - rewrite !fmap_app. unfold violated_fields.
    rewrite (errors_of_loc (check_device_id data) "device_id"),
      (errors_of_loc (check_type data) "type"),
      (errors_of_loc (check_value L data) "value"),
      (errors_of_loc (check_ts L data) "ts"),
      (errors_of_loc (check_raw data) "raw"); [done|..].
    + apply optional_dict_field_loc.
    + intros e. apply after_validator_loc, int_field_loc.
    + apply float_field_loc.
    + intros e. apply after_validator_loc, str_field_loc.
    + intros e. apply after_validator_loc, str_field_loc.
Qed.

Lemma response_field status d rid k :
  k ≠ "request_id" →
  body_field (_response status (PDict d) (Some rid)) k = dict_get d k.
Proof.
  intros Hk. unfold body_field, _response. cbn [resp_body].
  destruct (truthy (PStr rid)); [|done].
  rewrite dict_get_set_ne; [done|congruence].
Qed.

Lemma detail_of_errors (errs : list error_detail) :
  (error_dict <$> errs) ≫=
    (λ e, match e with
          | PDict d => match dict_get d "loc" with
                       | Some (PList loc) => loc
                       | _ => []
                       end
          | _ => []
          end) = PStr <$> (err_loc <$> errs).
Proof.
  induction errs as [|e errs IH]; [done|].
  rewrite !fmap_cons, bind_cons, IH. done.
Qed.

(** The rules written on the decoded object are the checks of the schema,
    field by field. *)
Lemma check_text_rule field hi data :
  is_invalid (after_validator field PStr not_empty (str_field field 1 hi data))
  = breaks_text_rule hi (dict_get data field).
Proof.
  unfold after_validator, str_field, not_empty, breaks_text_rule.
  destruct (dict_get data field) as [[| | | | |s| |]|]; try done.
  destruct s as [|c s]; [done|].
  change (String.length (String c s) <? 1)%nat with false. cbv iota.
  destruct (hi <? String.length (String c s))%nat; [by rewrite orb_true_r|].
  rewrite orb_false_r. cbn [truthy].
  by destruct (String.eqb (strip (String c s)) "").
Qed.

Lemma check_value_rule L data :
  is_invalid (check_value L data)
  = breaks_number_rule L (dict_get data "value").
Proof.
  unfold check_value, float_field, breaks_number_rule.
  destruct (dict_get data "value") as [[]|]; cbn; try done.
  - by destruct (float_of_int _).
  - by destruct (float_of_int z).
  - by destruct (str_as_float L s).
Qed.

Lemma check_ts_rule L data :
  is_invalid (check_ts L data) = breaks_ts_rule L (dict_get data "ts").
Proof.
  unfold check_ts, int_field, after_validator, ts_must_be_positive,
    breaks_ts_rule.
  destruct (dict_get data "ts") as [[]|]; cbn; try done.
  - by destruct b.
  - by destruct (z <=? 0).
  - destruct (float_trunc f) as [z|], (float_is_integral f); try done.
    by destruct (z <=? 0).
  - destruct (str_as_int L s) as [z|]; [|done]. by destruct (z <=? 0).
Qed.

Lemma check_raw_rule data :
  is_invalid (check_raw data) = breaks_raw_rule (dict_get data "raw").
Proof.
  unfold check_raw, optional_dict_field, breaks_raw_rule.
  by destruct (dict_get data "raw") as [[]|].
Qed.

Lemma schema_violations_checks L data :
  schema_violations L data = violated_fields L data.
Proof.
  unfold schema_violations, fields_breaking, violated_fields,
    check_device_id, check_type.
  by rewrite !check_text_rule, check_value_rule, check_ts_rule, check_raw_rule.
Qed.

(** A body without [device_id] and with the [value] [1e400] breaks two
    rules of the specification, and the 400 it gets names [device_id]
    only: a [value] that is not finite is not reported. *)
Lemma non_finite_value_is_not_reported :
  let r := ingest_event overflow_library (sample_env "u-1")
             (http_post overflow_body) sample_context empty_world in
  json_loads overflow_library overflow_body = inr (PDict overflow_data)
  ∧ spec_violations overflow_library overflow_data = ["device_id"; "value"]
  ∧ ∃ resp,
      r = (Returned resp, empty_world)
      ∧ statusCode resp = 400
      ∧ body_field resp "error" = Some (PStr "Validation failed")
      ∧ detail_fields resp = [PStr "device_id"].
Proof.
  intros r. split; [vm_compute; reflexivity|].
  split; [vm_compute; reflexivity|].
  eexists. split; [vm_compute; reflexivity|].
  split; [reflexivity|]. split; vm_compute; reflexivity.
Qed.

(** C8. Aggregated validation errors: when the body is a JSON object that
    breaks the rule of at least one field, a [value] that is not finite
    not counting as a breach, [ingest_event] returns one 400 response,
    leaves the world as it was, and the [detail] of the response names
    every violated field, once each. *)
Theorem validation_errors_are_aggregated L E event context w text data :
  body event = Some (PStr text) →
  json_loads L text = inr (PDict data) →
  schema_violations L data ≠ [] →
  ∃ resp,
    ingest_event L E event context w = (Returned resp, w)
    ∧ statusCode resp = 400
    ∧ body_field resp "error" = Some (PStr "Validation failed")
    ∧ detail_fields resp = PStr <$> schema_violations L data.
Proof.
  rewrite schema_violations_checks. intros Hb Hj Hv.
  destruct (EventPayload_init_inl L data Hv) as (errs & Hinit & Hloc).
  eexists. split; [|split; [|split]].
  - unfold ingest_event, try_except, _parse_body.
    rewrite Hb, Hj, Hinit. reflexivity.
  - reflexivity.
  - by rewrite response_field.
  - unfold detail_fields. rewrite response_field by done.
    change (dict_get _ "detail") with (Some (PList (error_dict <$> errs))).
    cbv beta iota. by rewrite detail_of_errors, Hloc.
Qed.

Lemma validation_errors_are_aggregated_witness :
  ∃ resp,
    ingest_event sample_library (sample_env "u-1") (http_post bad_body)
      sample_context empty_world = (Returned resp, empty_world)
    ∧ statusCode resp = 400
    ∧ body_field resp "error" = Some (PStr "Validation failed")
    ∧ detail_fields resp = [PStr "device_id"; PStr "ts"].
Proof.
  apply (validation_errors_are_aggregated sample_library (sample_env "u-1")
           (http_post bad_body) sample_context empty_world bad_body
           [("type", PStr "temp"); ("value", PFloat f21_5); ("ts", PInt (-1))]).
  - reflexivity.
  - vm_compute. reflexivity.
  - vm_compute. discriminate.
Defined.

(** ** The [raw] payload *)

(** The stored record of an empty [raw] object: the reading is accepted
    and its record has no [raw] attribute. *)
Lemma empty_raw_is_not_stored :
  let text := reading_raw_body "d1" 1000 "{}" in
  let r := ingest_event sample_library (sample_env "u-1") (http_post text)
             sample_context empty_world in
  json_loads sample_library text
    = inr (reading_raw_data "d1" 1000 (PDict []))
  ∧ status_of r.1 = Some 201
  ∧ ∃ item, table r.2 !! event_key "d1" 1000 = Some item
            ∧ dict_get item "raw" = None
            ∧ dict_get item "raw" ≠ Some (PDict []).
Proof.
  intros text r. split; [vm_compute; reflexivity|].
  split; [vm_compute; reflexivity|].
  eexists. split; [vm_compute; reflexivity|].
  split; [vm_compute; reflexivity|]. vm_compute. discriminate.
Qed.

(** C9. The [raw] payload in the stored record.  For a request that validates, with the store taking the
    put and no record yet under the key: the stored record holds the [raw]
    object of the input unchanged when that object is not empty, and has no
    [raw] attribute when [raw] is absent, null or an empty object. *)
Theorem raw_stored_when_not_empty L E event context w text data p :
  body event = Some (PStr text) →
  json_loads L text = inr (PDict data) →
  EventPayload_init L data = inr p →
  put_fault E = None →
  table w !! event_key (device_id p) (ts p) = None →
  ∃ item,
    table (ingest_event L E event context w).2
      !! event_key (device_id p) (ts p) = Some item
    ∧ dict_get item "raw" =
      match dict_get data "raw" with
      | Some (PDict (x :: r)) => Some (PDict (x :: r))
      | _ => None
      end.
Proof.
  intros Hb Hj Hinit Hput Hfresh.
  exists (make_item E p (request_id_of E context)). split.
  - unfold ingest_event, try_except, _parse_body.
    rewrite Hb, Hj, Hinit. unfold ret at 1.
    unfold put_item. rewrite Hput, item_key_make_item, Hfresh.
    simpl. unfold send_message.
    destruct (send_fault E) as [[]|]; simpl; by rewrite lookup_insert_eq.
  - rewrite make_item_raw.
    apply EventPayload_init_inr in Hinit as (_ & _ & _ & _ & Hraw).
    unfold check_raw, optional_dict_field in Hraw.
    destruct (dict_get data "raw") as [[]|]; simplify_eq;
      rewrite <-Hraw; try done.
Qed.

Lemma raw_stored_when_not_empty_witness :
  ∃ item,
    table (ingest_event sample_library (sample_env "u-1")
             (http_post (reading_raw_body "d1" 2000
                           (json_object [("unit", json_string "C")])))
             sample_context empty_world).2
      !! event_key "d1" 2000 = Some item
    ∧ dict_get item "raw" = Some (PDict [("unit", PStr "C")]).
Proof.
  apply (raw_stored_when_not_empty sample_library (sample_env "u-1")
           (http_post (reading_raw_body "d1" 2000
                         (json_object [("unit", json_string "C")])))
           sample_context empty_world
           (reading_raw_body "d1" 2000 (json_object [("unit", json_string "C")]))
           [("device_id", PStr "d1"); ("type", PStr "temp");
            ("value", PFloat f21_5); ("ts", PInt 2000);
            ("raw", PDict [("unit", PStr "C")])]
           {| device_id := "d1"; type := "temp"; value := f21_5; ts := 2000;
              raw := Some [("unit", PStr "C")] |}).
  - reflexivity.
  - vm_compute. reflexivity.
  - vm_compute. reflexivity.
  - reflexivity.
  - reflexivity.
Defined.

(** ** Decimal strings and the order of sort keys *)

Lemma ndigits_div k x : ndigits (S k) x → ndigits k (x `div` 10)%N.
Proof.
  destruct k as [|k]; simpl.
  - intros [_ H]. apply N.div_small. simpl in H. lia.
  - rewrite !Nat2N.inj_succ, !N.pow_succ_r'. intros [H1 H2]. split.
    + apply N.div_le_lower_bound; lia.
    + apply N.Div0.div_lt_upper_bound; lia.
Qed.

Lemma pretty_N_char_compare a b :
  (a < 10)%N → (b < 10)%N →
  Ascii.compare (pretty_N_char a) (pretty_N_char b) = (a ?= b)%N.
Proof.
  intros Ha Hb.
  assert (∀ x, (x < 10)%N → N_of_ascii (pretty_N_char x) = (48 + x)%N) as Hc.
  { intros x Hx.
    assert (x = 0 ∨ x = 1 ∨ x = 2 ∨ x = 3 ∨ x = 4 ∨ x = 5 ∨ x = 6 ∨ x = 7
            ∨ x = 8 ∨ x = 9)%N as Hx' by lia.
    repeat (destruct Hx' as [->|Hx']; [reflexivity|]). by subst. }
  unfold Ascii.compare. rewrite !Hc by done.
  destruct (N.compare_spec a b); [subst; apply N.compare_refl|..].
  - apply N.compare_lt_iff. lia.
  - apply N.compare_gt_iff. lia.
Qed.

(** Numbers with the same count of digits compare as their decimal
    strings do. *)
Lemma pretty_N_go_compare k : ∀ x y s t,
  ndigits k x → ndigits k y →
  String.compare (pretty_N_go x s) (pretty_N_go y t) =
  match (x ?= y)%N with Eq => String.compare s t | c => c end.
Proof.
  induction k as [|k IH]; intros x y s t Hx Hy.
  - simpl in *. subst. by rewrite !pretty_N_go_0.
  - assert (0 < x ∧ 0 < y)%N as [Hx0 Hy0].
    { simpl in Hx, Hy. split.
      - eapply N.lt_le_trans; [|apply Hx].
        apply N.neq_0_lt_0, N.pow_nonzero. done.
      - eapply N.lt_le_trans; [|apply Hy].
        apply N.neq_0_lt_0, N.pow_nonzero. done. }
    rewrite (pretty_N_go_step x), (pretty_N_go_step y) by done.
    rewrite (IH _ _ _ _ (ndigits_div _ _ Hx) (ndigits_div _ _ Hy)).
    pose proof (N.div_mod x 10 ltac:(done)) as Ex.
    pose proof (N.div_mod y 10 ltac:(done)) as Ey.
    pose proof (N.mod_lt x 10 ltac:(done)) as Mx.
    pose proof (N.mod_lt y 10 ltac:(done)) as My.
    revert Ex Ey Mx My.
    generalize (x `div` 10)%N (y `div` 10)%N (x `mod` 10)%N (y `mod` 10)%N.
    intros qx qy rx ry Ex Ey Mx My.
    destruct (N.compare_spec qx qy) as [Hq|Hq|Hq].
    + simpl. rewrite pretty_N_char_compare by done.
      destruct (N.compare_spec rx ry) as [Hr|Hr|Hr].
      * assert (x = y) as -> by lia. by rewrite N.compare_refl.
      * by assert ((x ?= y)%N = Lt) as -> by (apply N.compare_lt_iff; lia).
      * by assert ((x ?= y)%N = Gt) as -> by (apply N.compare_gt_iff; lia).
    + by assert ((x ?= y)%N = Lt) as -> by (apply N.compare_lt_iff; lia).
    + by assert ((x ?= y)%N = Gt) as -> by (apply N.compare_gt_iff; lia).
Qed.

Lemma string_app_assoc (s1 s2 s3 : string) :
  (s1 +:+ s2) +:+ s3 = s1 +:+ (s2 +:+ s3).
Proof.
  induction s1 as [|c s1 IH]; [done|].
  change (String c ((s1 +:+ s2) +:+ s3) = String c (s1 +:+ (s2 +:+ s3))).
  by rewrite IH.
Qed.

Lemma pretty_N_go_app x : ∀ s, pretty_N_go x s = pretty_N_go x "" +:+ s.
Proof.
  induction (N.lt_wf_0 x) as [x _ IH]; intros s.
  destruct (decide (x = 0%N)) as [->|Hx]; [by rewrite !pretty_N_go_0|].
  rewrite (pretty_N_go_step x s), (pretty_N_go_step x "") by lia.
  rewrite (IH (x `div` 10)%N) by (apply N.div_lt; lia).
  rewrite (IH (x `div` 10)%N ltac:(apply N.div_lt; lia) (String _ "")).
  by rewrite string_app_assoc.
Qed.

Lemma pretty_N_go_nonempty x : (0 < x)%N → pretty_N_go x "" ≠ "".
Proof.
  intros Hx. rewrite pretty_N_go_step, pretty_N_go_app by done.
  by destruct (pretty_N_go (x `div` 10) "").
Qed.

Lemma str_of_int_nonempty (z : Z) : str_of_int z ≠ "".
Proof.
  unfold str_of_int. destruct z as [|p|p]; [done|..].
  - unfold pretty, pretty_Z, pretty, pretty_positive, pretty, pretty_N.
    rewrite decide_False by done. by apply pretty_N_go_nonempty.
  - done.
Qed.

Lemma string_compare_refl (s : string) : String.compare s s = Eq.
Proof.
  induction s as [|c s IH]; [done|]. simpl.
  unfold Ascii.compare. by rewrite N.compare_refl.
Qed.

Lemma string_compare_app (p s t : string) :
  String.compare (p +:+ s) (p +:+ t) = String.compare s t.
Proof.
  induction p as [|c p IH]; [done|].
  change (String.compare (String c (p +:+ s)) (String c (p +:+ t))
          = String.compare s t).
  simpl. unfold Ascii.compare. by rewrite N.compare_refl.
Qed.

Lemma has_digits_ndigits n t :
  has_digits n t = true → ∃ p, t = Zpos p ∧ ndigits n (Npos p).
Proof.
  unfold has_digits. rewrite !andb_true_iff.
  intros [[Hn Hlo%Z.leb_le] Hhi%Z.ltb_lt]. apply Nat.ltb_lt in Hn.
  destruct n as [|k]; [lia|].
  assert (0 < 10 ^ (Z.of_nat (S k) - 1)) by (apply Z.pow_pos_nonneg; lia).
  destruct t as [|p|p]; try lia. exists p. split; [done|].
  simpl ndigits. split.
  - apply N2Z.inj_le. rewrite N2Z.inj_pow, nat_N_Z. simpl Z.of_N.
    by replace (Z.of_nat k) with (Z.of_nat (S k) - 1) by lia.
  - apply N2Z.inj_lt. rewrite N2Z.inj_pow, nat_N_Z. done.
Qed.

(** Among timestamps with the same count of digits, the sort keys are in
    the order of the timestamps. *)
Lemma sort_key_leb n a t :
  has_digits n a = true → has_digits n t = true →
  String.leb ("TS#" +:+ str_of_int a) ("TS#" +:+ str_of_int t) = (a <=? t).
Proof.
  intros (p & -> & Hp)%has_digits_ndigits (q & -> & Hq)%has_digits_ndigits.
  unfold String.leb. rewrite string_compare_app.
  unfold str_of_int, pretty, pretty_Z, pretty, pretty_positive, pretty, pretty_N.
  rewrite !decide_False by done.
  rewrite (pretty_N_go_compare n _ _ _ _ Hp Hq), string_compare_refl.
  change (N.pos p ?= N.pos q)%N with (Z.pos p ?= Z.pos q).
  unfold Z.leb. by destruct (Z.pos p ?= Z.pos q).
Qed.

Lemma event_key_inj d t d' t' :
  event_key d t = event_key d' t' → d = d' ∧ t = t'.
Proof.
  unfold event_key, str_of_int. intros H.
  pose proof (f_equal fst H) as Hd. pose proof (f_equal snd H) as Ht.
  cbn [fst snd] in Hd, Ht.
  apply (inj (String.app "DEVICE#")) in Hd.
  apply (inj (String.app "TS#")) in Ht.
  split; [done|]. by apply (inj pretty).
Qed.

(** ** Stored items and returned rows *)

Lemma keyed_item_spec k it :
  keyed_item k it = true →
  ∃ d t, k = event_key d t ∧ str_attr it "device_id" = Some d
         ∧ item_ts it = Some t ∧ 0 < t
         ∧ str_attr it "PK" = Some k.1 ∧ str_attr it "SK" = Some k.2.
Proof.
  unfold keyed_item.
  destruct (str_attr it "device_id") as [d|] eqn:Hd; [|done].
  destruct (item_ts it) as [t|] eqn:Ht; [|done].
  rewrite !andb_true_iff, !bool_decide_eq_true, Z.ltb_lt.
  intros [[Hk ->] Hpos]. exists d, t. repeat split; try done.
  - unfold item_key in Hk. unfold str_attr.
    destruct (dict_get it "PK") as [[]|]; try done.
    destruct (dict_get it "SK") as [[]|]; try done.
    exact (f_equal (option_map fst) Hk).
  - unfold item_key in Hk. unfold str_attr.
    destruct (dict_get it "PK") as [[]|]; try done.
    destruct (dict_get it "SK") as [[]|]; try done.
    exact (f_equal (option_map snd) Hk).
Qed.

Lemma event_table_lookup L tbl k it :
  event_table L tbl → tbl !! k = Some it →
  keyed_item k it = true ∧ converts L it = true.
Proof.
  unfold event_table. rewrite forallb_forall. intros Hall Hk.
  apply andb_true_iff.
  apply (Hall (k, it)), list_elem_of_In, elem_of_map_to_list, Hk.
Qed.

Lemma partition_digits_lookup n d tbl t it :
  partition_digits n d tbl → tbl !! event_key d t = Some it →
  has_digits n (default 0 (item_ts it)) = true.
Proof.
  unfold partition_digits. rewrite forallb_forall. intros Hall Hk.
  specialize (Hall (event_key d t, it)). cbn [fst snd event_key] in Hall.
  rewrite String.eqb_refl in Hall.
  apply Hall, list_elem_of_In, elem_of_map_to_list, Hk.
Qed.

Lemma row_from_store_get it k :
  dict_get (row_from_store it) k = from_store <$> dict_get it k.
Proof.
  induction it as [|[k' v] it IH]; [done|].
  simpl. destruct (decide (k' = k)); [done|apply IH].
Qed.

(** What [convert_row] leaves of a row: the three numeric attributes are
    rewritten, [ts] to the integer it reads, and nothing else changes. *)
Lemma convert_row_spec L row row' :
  convert_row L row = Returned row' →
  (∃ v t, dict_get row "ts" = Some v ∧ py_int v = Returned t
          ∧ dict_get row' "ts" = Some (PInt t))
  ∧ ∀ k, k ≠ "value" → k ≠ "ts" → k ≠ "ingested_at" →
         dict_get row' k = dict_get row k.
Proof.
  unfold convert_row.
  destruct (dict_get row "value") as [v|]; [|done]. cbn [outcome_bind].
  destruct (py_float L v) as [f|]; [|done]. cbn [outcome_bind].
  destruct (dict_get row "ts") as [vt|] eqn:Hts; [|done]. cbn [outcome_bind].
  destruct (py_int vt) as [t|] eqn:Ht; [|done]. cbn [outcome_bind].
  destruct (dict_get row "ingested_at") as [vi|]; [|done]. cbn [outcome_bind].
  destruct (py_int vi) as [i|]; [|done]. cbn [outcome_bind].
  intros [= <-]. split.
  - exists vt, t. repeat split; [done|].
    rewrite dict_get_set_ne by done. apply dict_get_set_eq.
  - intros k H1 H2 H3.
    rewrite !dict_get_set_ne by done. done.
Qed.

Lemma convert_rows_Forall2 L rows items :
  convert_rows L rows = Returned items →
  Forall2 (λ row item, convert_row L row = Returned item) rows items.
Proof.
  revert items. induction rows as [|row rows IH]; intros items; simpl.
  - intros [= <-]. constructor.
  - destruct (convert_row L row) as [r|] eqn:Hr; [|done]. cbn [outcome_bind].
    destruct (convert_rows L rows) as [rs|]; [|done]. cbn [outcome_bind].
    intros [= <-]. constructor; [done|by apply IH].
Qed.


(** ** The table under the handlers *)

Lemma parse_outcome_ts_pos L event p :
  parse_outcome L event = Returned p → 0 < ts p.
Proof.
  unfold parse_outcome, _parse_body.
  destruct (body event) as [[]|]; try done.
  destruct (json_loads L s) as [msg|[]]; try done.
  destruct (EventPayload_init L kvs) as [errs|p'] eqn:Hinit; [done|].
  intros [= ->].
  apply EventPayload_init_inr in Hinit as (_ & _ & _ & Hts & _).
  unfold check_ts, after_validator, ts_must_be_positive in Hts.
  destruct (int_field L "ts" kvs) as [z|]; [|done].
  destruct (z <=? 0) eqn:Hz; [done|].
  injection Hts as <-. by apply Z.leb_gt.
Qed.

Lemma keyed_make_item E p rid :
  0 < ts p →
  keyed_item (event_key (device_id p) (ts p)) (make_item E p rid) = true.
Proof.
  intros Hpos. unfold keyed_item, str_attr, item_ts.
  rewrite !make_item_get by done. cbn [dict_get]. simpl.
  rewrite item_key_make_item. rewrite !bool_decide_eq_true_2 by done.
  by apply Z.ltb_lt.
Qed.

(** [ingest_event] leaves the table alone or adds the item of its payload
    under the payload's key. *)
Lemma ingest_event_table L E event context w :
  table (ingest_event L E event context w).2 = table w
  ∨ ∃ p, parse_outcome L event = Returned p
         ∧ table (ingest_event L E event context w).2
           = <[event_key (device_id p) (ts p)
               := make_item E p (request_id_of E context)]> (table w).
Proof.
  unfold ingest_event, try_except. rewrite parse_body_pure.
  destruct (parse_outcome L event) as [p|e] eqn:Hp.
  - unfold put_item. rewrite item_key_make_item.
    destruct (put_fault E) as [e|].
    { left. destruct e; try done. by destruct (String.eqb _ _). }
    destruct (table w !! event_key (device_id p) (ts p)) as [old|].
    + destruct (dict_get old "SK"); [by left|].
      right. exists p. split; [done|]. cbn.
      unfold send_message. by destruct (send_fault E) as [[]|].
    + right. exists p. split; [done|]. cbn.
      unfold send_message. by destruct (send_fault E) as [[]|].
  - left. by destruct e.
Qed.

Lemma get_device_events_table L E event context w :
  table (get_device_events L E event context w).2 = table w.
Proof.
  unfold get_device_events.
  destruct (negb _); [done|].
  unfold bind at 1, lift at 1.
  destruct (match _ !! "limit" with Some _ => _ | None => _ end) as [lim|];
    [|done].
  unfold try_except, query.
  destruct (query_fault E) as [e|]; [by destruct e|].
  destruct (lim <? 1); [done|].
  unfold bind, lift, ret. by destruct (convert_rows _ _).
Qed.

Lemma reachable_keyed L w : reachable L w → keyed_table (table w).
Proof.
  induction 1 as [|E event context w _ IH|E event context w _ IH].
  - apply map_Forall_empty.
  - destruct (ingest_event_table L E event context w) as [->|(p & Hp & ->)];
      [done|].
    apply map_Forall_insert_2; [|done].
    apply keyed_make_item. by eapply parse_outcome_ts_pos.
  - by rewrite get_device_events_table.
Qed.

(** ** What a query returns *)

Lemma matching_rows_elem tbl c forward it :
  it ∈ matching_rows tbl c forward
  ↔ (∃ k, tbl !! k = Some it) ∧ eval_condition c it = true.
Proof.
  unfold matching_rows. rewrite merge_sort_Permutation.
  rewrite list_elem_of_filter, list_elem_of_fmap. split.
  - intros [Hc ([k it'] & -> & Hin%elem_of_map_to_list)]. eauto.
  - intros [[k Hk] Hc]. split; [done|].
    exists (k, it). split; [done|]. by apply elem_of_map_to_list.
Qed.

Lemma scan_order_trans forward : Transitive (scan_order forward).
Proof.
  intros x y z. unfold scan_order. destruct forward; intros ??; by etrans.
Qed.

Lemma scan_order_total forward : Total (scan_order forward).
Proof. intros x y. unfold scan_order. destruct forward; apply total, _. Qed.

Lemma matching_rows_sorted tbl c forward :
  StronglySorted (scan_order forward) (matching_rows tbl c forward).
Proof.
  apply StronglySorted_merge_sort;
    [apply scan_order_trans|apply scan_order_total].
Qed.

Lemma matching_rows_NoDup tbl c forward :
  keyed_table tbl → NoDup (matching_rows tbl c forward).
Proof.
  intros Hk. unfold matching_rows. rewrite merge_sort_Permutation.
  apply NoDup_filter, NoDup_fmap_2_strong; [|apply NoDup_map_to_list].
  intros [k1 i1] [k2 i2] H1%elem_of_map_to_list H2%elem_of_map_to_list Heq.
  cbn in Heq. subst i2.
  apply Hk in H1, H2. cbn in H1, H2.
  apply keyed_item_spec in H1 as (d1 & t1 & -> & Hd1 & Ht1 & _).
  apply keyed_item_spec in H2 as (d2 & t2 & -> & Hd2 & Ht2 & _).
  by simplify_eq.
Qed.

(** Every key condition the handler builds pins the partition key. *)
Lemma make_key_condition_pk pk from_ts to_ts it :
  eval_condition (make_key_condition pk from_ts to_ts) it = true →
  str_attr it "PK" = Some pk.
Proof.
  unfold make_key_condition.
  assert (eval_condition (CondEq "PK" pk) it = true → str_attr it "PK" = Some pk)
    as Heq.
  { simpl. destruct (str_attr it "PK") as [s|]; [|done].
    by intros ->%String.eqb_eq. }
  repeat case_match; simpl eval_condition at 1;
    rewrite ?andb_true_iff; try intros [? _]; auto.
Qed.

Lemma events_of_response status d rid :
  events_of (_response status (PDict d) (Some rid)) =
  match dict_get d "events" with
  | Some (PList l) => l
  | _ => []
  end.
Proof. unfold events_of. by rewrite response_field. Qed.

Lemma str_attr_Some it a s :
  str_attr it a = Some s → dict_get it a = Some (PStr s).
Proof.
  unfold str_attr. destruct (dict_get it a) as [[]|]; try done.
  by intros [= ->].
Qed.

(** Every event in a response of [get_device_events] is the converted row
    of an item that matches the key condition of the request. *)
Lemma get_device_events_returns L E event context w resp v :
  (get_device_events L E event context w).1 = Returned resp →
  v ∈ events_of resp →
  ∃ it row,
    it ∈ matching_rows (table w) (requested_condition event) false
    ∧ convert_row L (row_from_store it) = Returned row
    ∧ v = PDict row.
Proof.
  destruct (decide (requested_device event = "")) as [Hd|Hd].
  { unfold get_device_events. fold (requested_device event). rewrite Hd.
    cbn [truthy negb String.eqb]. intros [= <-].
    rewrite events_of_response. cbn. by intros ?%elem_of_nil. }
  destruct (requested_limit event) as [lim|e] eqn:Hl.
  2:{ unfold get_device_events. fold (requested_device event).
      rewrite (truthy_str _ Hd). cbn [negb].
      fold (requested_limit event). rewrite Hl. done. }
  rewrite (get_device_events_query _ _ _ _ _ lim Hd Hl).
  unfold try_except, query.
  destruct (query_fault E) as [e|].
  { destruct e; try done. intros [= <-].
    rewrite events_of_response. cbn. by intros ?%elem_of_nil. }
  destruct (lim <? 1); [done|].
  unfold bind, lift, ret. cbn [Items].
  destruct (convert_rows L _) as [items|] eqn:Hitems; [|done].
  intros [= <-]. rewrite events_of_response.
  change (dict_get _ "events") with (Some (PList (PDict <$> items))).
  cbv beta iota.
  intros (item & -> & Hin)%list_elem_of_fmap.
  apply convert_rows_Forall2 in Hitems.
  apply list_elem_of_lookup in Hin as [i Hi].
  destruct (Forall2_lookup_r _ _ _ _ _ Hitems Hi) as (row0 & Hrow0 & Hconv).
  apply list_lookup_fmap_Some in Hrow0 as (it & -> & Hit).
  exists it, item. repeat split; [|done].
  apply (list_elem_of_lookup_2 _ i).
  by apply lookup_take_Some in Hit as [? _].
Qed.

(** ** Partition isolation *)

(** C10. Partition isolation fails on an id with surrounding whitespace.
    [ingest_event] stores a record under the partition of its [device_id]
    as given, [get_device_events] strips the requested id before it builds
    the partition key: with one reading of the device ["d1"] and one of the
    device [" d1"] stored, a request for [" d1"] is answered with the
    reading ingested for ["d1"], and not with its own. *)
Theorem stripped_lookup_returns_other_device :
  let w := after_posts [reading_body "d1" 1000; reading_body " d1" 1000] in
  let r := get_device_events sample_library (sample_env "u-1")
             (http_get " d1" []) sample_context w in
  (" d1" : string) ≠ "d1"
  ∧ (∃ it, table w !! event_key "d1" 1000 = Some it
           ∧ str_attr it "device_id" = Some "d1")
  ∧ (∃ it, table w !! event_key " d1" 1000 = Some it
           ∧ str_attr it "device_id" = Some " d1")
  ∧ ∃ resp row,
      r.1 = Returned resp ∧ events_of resp = [PDict row]
      ∧ dict_get row "device_id" = Some (PStr "d1").
Proof.
  intros w r. split; [done|].
  split; [eexists; split; vm_compute; reflexivity|].
  split; [eexists; split; vm_compute; reflexivity|].
  eexists _, _. split; [vm_compute; reflexivity|].
  split; [vm_compute; reflexivity|]. vm_compute. reflexivity.
Qed.

(** ** Range queries *)

Lemma StronglySorted_strengthen {A} (R R' : relation A) (l : list A) :
  StronglySorted R l → NoDup l →
  (∀ x y, x ∈ l → y ∈ l → x ≠ y → R x y → R' x y) →
  StronglySorted R' l.
Proof.
  induction 1 as [|x l Hl IH Hx]; intros Hnd HR; [constructor|].
  apply NoDup_cons in Hnd as [Hxl Hnd]. constructor.
  - apply IH; [done|]. intros y z Hy Hz. apply HR; by right.
  - rewrite Forall_forall in Hx |- *. intros y Hy.
    apply HR; [by left|by right| |by apply Hx]. by intros ->.
Qed.

Lemma event_table_keyed L tbl : event_table L tbl → keyed_table tbl.
Proof.
  intros Ht k it Hk. by destruct (event_table_lookup L tbl k it Ht Hk).
Qed.

Lemma convert_rows_converts L (l : list dict) :
  (∀ it, it ∈ l → converts L it = true) →
  ∃ rs, convert_rows L (row_from_store <$> l) = Returned rs
        ∧ PDict <$> rs = returned_event L <$> l.
Proof.
  induction l as [|it l IH]; intros Hl; [by exists []|].
  destruct IH as (rs & Hrs & Heq).
  { intros it' Hit'. apply Hl. by right. }
  pose proof (Hl it ltac:(by left)) as Hit.
  unfold converts in Hit.
  destruct (convert_row L (row_from_store it)) as [r|] eqn:Hr; [|done].
  exists (r :: rs). split.
  - rewrite fmap_cons. cbn [convert_rows]. by rewrite Hr, Hrs.
  - rewrite !fmap_cons, Heq. unfold returned_event at 2. by rewrite Hr.
Qed.

(** The event returned for a stored item carries the item's [ts]. *)
Lemma returned_event_ts L it t :
  converts L it = true → item_ts it = Some t →
  event_ts (returned_event L it) = Some t.
Proof.
  unfold converts, returned_event, item_ts.
  destruct (convert_row L (row_from_store it)) as [row|] eqn:Hr; [|done].
  intros _ Ht.
  apply convert_row_spec in Hr as [(v & t' & Hv & Hint & Hrow) _].
  rewrite row_from_store_get in Hv.
  destruct (dict_get it "ts") as [[]|]; try done.
  injection Ht as ->. cbn in Hv. injection Hv as <-. cbn in Hint.
  injection Hint as <-. cbn. by rewrite Hrow.
Qed.

(** The key condition of a request, on an item of a table of events. *)
Lemma make_key_condition_eval n pk lo hi it pk' t :
  str_attr it "PK" = Some pk' →
  str_attr it "SK" = Some ("TS#" +:+ str_of_int t) →
  (pk' = pk → has_digits n t = true) →
  from_option (λ a, has_digits n a = true) True lo →
  from_option (λ b, has_digits n b = true) True hi →
  eval_condition
    (make_key_condition pk (str_of_int <$> lo) (str_of_int <$> hi)) it = true
  ↔ pk' = pk ∧ in_range lo hi t.
Proof.
  intros Hpk Hsk Hn Hlo Hhi. unfold make_key_condition, in_range.
  assert (∀ z, negb (String.eqb (str_of_int z) "") = true) as Hne.
  { intros z. apply negb_true_iff, String.eqb_neq, str_of_int_nonempty. }
  destruct lo as [a|], hi as [b|]; cbn [fmap option_fmap option_map from_option
    truthy andb default id] in *; rewrite ?Hne; cbn [andb eval_condition];
    rewrite Hpk, ?Hsk, ?andb_true_iff, String.eqb_eq.
  - split.
    + intros [-> [H1 H2]]. specialize (Hn eq_refl).
      rewrite (sort_key_leb n) in H1, H2 by done.
      apply Z.leb_le in H1, H2. done.
    + intros [-> [H1 H2]]. specialize (Hn eq_refl).
      rewrite !(sort_key_leb n) by done.
      split; [done|]. split; by apply Z.leb_le.
  - split.
    + intros [-> H1]. specialize (Hn eq_refl).
      rewrite (sort_key_leb n) in H1 by done. apply Z.leb_le in H1. done.
    + intros [-> [H1 _]]. specialize (Hn eq_refl).
      rewrite !(sort_key_leb n) by done. split; [done|]. by apply Z.leb_le.
  - split.
    + intros [-> H1]. specialize (Hn eq_refl).
      rewrite (sort_key_leb n) in H1 by done. apply Z.leb_le in H1. done.
    + intros [-> [_ H1]]. specialize (Hn eq_refl).
      rewrite !(sort_key_leb n) by done. split; [done|]. by apply Z.leb_le.
  - split; [by intros ->|by intros [-> _]].
Qed.

Lemma stored_event_facts L n d tbl t it :
  event_table L tbl → partition_digits n d tbl →
  tbl !! event_key d t = Some it →
  item_ts it = Some t
  ∧ str_attr it "PK" = Some ("DEVICE#" +:+ d)
  ∧ str_attr it "SK" = Some ("TS#" +:+ str_of_int t)
  ∧ has_digits n t = true
  ∧ converts L it = true.
Proof.
  intros Ht Hp Hk.
  destruct (event_table_lookup L tbl _ it Ht Hk) as [Hkeyed Hconv].
  apply keyed_item_spec in Hkeyed as (d' & t' & Heq & _ & Hts & _ & Hpk & Hsk).
  apply event_key_inj in Heq as [<- <-].
  pose proof (partition_digits_lookup n d tbl t it Hp Hk) as Hd.
  rewrite Hts in Hd. done.
Qed.

(** The rows a range query walks are the records of the device whose
    timestamp is within the bounds. *)
Lemma range_rows L n event lo hi tbl it :
  event_table L tbl →
  partition_digits n (requested_device event) tbl →
  default ∅ (queryStringParameters event) !! "from_ts" = str_of_int <$> lo →
  default ∅ (queryStringParameters event) !! "to_ts" = str_of_int <$> hi →
  from_option (λ a, has_digits n a = true) True lo →
  from_option (λ b, has_digits n b = true) True hi →
  it ∈ matching_rows tbl (requested_condition event) false
  ↔ ∃ t, in_range lo hi t ∧ tbl !! event_key (requested_device event) t = Some it.
Proof.
  intros Ht Hp Hfrom Hto Hlo Hhi.
  rewrite matching_rows_elem. unfold requested_condition.
  rewrite Hfrom, Hto. split.
  - intros [[k Hk] Hcond].
    destruct (event_table_lookup L tbl _ it Ht Hk) as [Hkeyed _].
    apply keyed_item_spec in Hkeyed as (d' & t' & -> & _ & _ & _ & Hpk & Hsk).
    apply (make_key_condition_eval n _ lo hi it _ t' Hpk Hsk) in Hcond
      as [Hd Hr]; [| |done..].
    + cbn [event_key fst] in Hd.
      apply (inj (String.app "DEVICE#")) in Hd. subst d'. eauto.
    + cbn [event_key fst]. intros Hd%(inj (String.app "DEVICE#")). subst d'.
      by destruct (stored_event_facts L n _ tbl t' it Ht Hp Hk)
        as (_ & _ & _ & ? & _).
  - intros (t & Hr & Hk).
    destruct (stored_event_facts L n _ tbl t it Ht Hp Hk)
      as (_ & Hpk & Hsk & Hd & _).
    split; [eauto|].
    by apply (make_key_condition_eval n _ lo hi it _ t Hpk Hsk).
Qed.

(** The default page of 100 events cuts a range that holds 101: the
    readings at 100, 101, ..., 200 of one device are stored and all within
    the bounds, and the reading at 100 is not returned. *)
Lemma page_limit_cuts_the_range :
  (get_device_events sample_library (sample_env "u-1") full_range_request
     sample_context hundred_and_one).1 = Returned first_hundred
  ∧ is_Some (table hundred_and_one !! event_key "d1" 100)
  ∧ statusCode first_hundred = 200
  ∧ length (events_of first_hundred) = 100%nat
  ∧ Some 100 ∉ event_ts <$> events_of first_hundred.
Proof.
  split; [vm_compute; reflexivity|].
  split; [vm_compute; eauto|].
  split; [reflexivity|].
  split; [vm_compute; reflexivity|].
  apply (bool_decide_unpack _). vm_compute. exact I.
Qed.

(** C3. Range correctness among timestamps of one length: on a
    table of events in which the records of the requested device, and the
    bounds that are given, all have the same count of decimal digits, with
    the store answering, [get_device_events] returns the first [limit]
    (100 when not given) events of the list [all], which holds, newest
    first, exactly the stored events of the device whose [ts] is within the
    bounds, both inclusive; a bound that is not given does not restrict.
    So when no more than [limit] events are in range, exactly those are
    returned. *)
Theorem range_query_on_equal_digit_counts L E event context w lo hi lim n :
  event_table L (table w) →
  partition_digits n (requested_device event) (table w) →
  requested_device event ≠ "" →
  default ∅ (queryStringParameters event) !! "from_ts" = str_of_int <$> lo →
  default ∅ (queryStringParameters event) !! "to_ts" = str_of_int <$> hi →
  from_option (λ a, has_digits n a = true) True lo →
  from_option (λ b, has_digits n b = true) True hi →
  requested_limit event = Returned lim → 1 ≤ lim →
  query_fault E = None →
  ∃ resp all,
    (get_device_events L E event context w).1 = Returned resp
    ∧ statusCode resp = 200
    ∧ events_of resp = take (Z.to_nat lim) all
    ∧ ((length all ≤ Z.to_nat lim)%nat → events_of resp = all)
    ∧ StronglySorted newer all
    ∧ ∀ v, v ∈ all ↔
        ∃ t it, in_range lo hi t
                ∧ table w !! event_key (requested_device event) t = Some it
                ∧ v = returned_event L it ∧ event_ts v = Some t.
Proof.
  intros Ht Hp Hd Hfrom Hto Hlo Hhi Hlim Hpos Hfault.
  set (rows := matching_rows (table w) (requested_condition event) false).
  pose proof (λ it, range_rows L n event lo hi (table w) it Ht Hp Hfrom Hto
                Hlo Hhi) as Hrows. fold rows in Hrows.
  assert (∀ it, it ∈ rows → converts L it = true) as Hconv.
  { intros it (t & _ & Hk)%Hrows.
    by destruct (stored_event_facts L n _ _ t it Ht Hp Hk) as (_&_&_&_&?). }
  destruct (convert_rows_converts L (take (Z.to_nat lim) rows))
    as (rs & Hrs & Heq).
  { intros it Hit%elem_of_take. destruct Hit as (i & Hi & _).
    apply Hconv. by eapply list_elem_of_lookup_2. }
  eexists _, (returned_event L <$> rows).
  split; [|split; [|split; [|split; [|split]]]].
  - rewrite (get_device_events_query _ _ _ _ _ lim Hd Hlim).
    unfold try_except, query. rewrite Hfault.
    assert (lim <? 1 = false) as -> by by apply Z.ltb_ge.
    unfold bind, lift, ret. cbn [Items table log_call]. fold rows.
    rewrite Hrs. reflexivity.
  - reflexivity.
  - rewrite events_of_response.
    change (dict_get _ "events") with (Some (PList (PDict <$> rs))).
    cbv beta iota. by rewrite Heq, fmap_take.
  - intros Hlen. rewrite events_of_response.
    change (dict_get _ "events") with (Some (PList (PDict <$> rs))).
    cbv beta iota. rewrite Heq, fmap_take. by apply take_ge.
  - apply (StronglySorted_fmap (returned_event L)
             (λ x y, newer (returned_event L x) (returned_event L y)));
      [done|].
    apply (StronglySorted_strengthen (scan_order false));
      [apply matching_rows_sorted
      |by apply matching_rows_NoDup, (event_table_keyed L)|].
    intros x y (tx & _ & Hx)%Hrows (ty & _ & Hy)%Hrows Hne Hord.
    destruct (stored_event_facts L n _ _ tx x Ht Hp Hx)
      as (Htx & _ & Hskx & Hdx & Hcx).
    destruct (stored_event_facts L n _ _ ty y Ht Hp Hy)
      as (Hty & _ & Hsky & Hdy & Hcy).
    exists tx, ty. split; [by apply returned_event_ts|].
    split; [by apply returned_event_ts|].
    unfold scan_order, sort_key, String.le in Hord.
    rewrite Hskx, Hsky in Hord. cbn [default id] in Hord.
    rewrite (sort_key_leb n) in Hord by done.
    apply Is_true_true, Z.leb_le in Hord.
    assert (tx ≠ ty); [|lia]. intros ->. apply Hne. congruence.
  - intros v. rewrite list_elem_of_fmap. split.
    + intros (it & -> & (t & Hr & Hk)%Hrows).
      destruct (stored_event_facts L n _ _ t it Ht Hp Hk)
        as (Hts & _ & _ & _ & Hc).
      exists t, it. split; [done|]. split; [done|]. split; [done|].
      by apply returned_event_ts.
    + intros (t & it & Hr & Hk & -> & _).
      exists it. split; [done|]. apply Hrows. eauto.
Qed.

Lemma range_query_on_equal_digit_counts_witness :
  ∃ resp all,
    (get_device_events sample_library (sample_env "u-1") range_request
       sample_context three_readings).1 = Returned resp
    ∧ statusCode resp = 200
    ∧ events_of resp = take (Z.to_nat 100) all
    ∧ ((length all ≤ Z.to_nat 100)%nat → events_of resp = all)
    ∧ StronglySorted newer all
    ∧ ∀ v, v ∈ all ↔
        ∃ t it, in_range (Some 120) (Some 200) t
                ∧ table three_readings
                  !! event_key (requested_device range_request) t = Some it
                ∧ v = returned_event sample_library it
                ∧ event_ts v = Some t.
Proof.
  apply (range_query_on_equal_digit_counts sample_library (sample_env "u-1")
           range_request sample_context three_readings (Some 120) (Some 200)
           100 3).
  - vm_compute. reflexivity.
  - vm_compute. reflexivity.
  - vm_compute. discriminate.
  - vm_compute. reflexivity.
  - vm_compute. reflexivity.
  - reflexivity.
  - reflexivity.
  - reflexivity.
  - lia.
  - reflexivity.
Defined.

(** * Further properties of the handlers *)

(** ** The response builder *)

(** X1. [_response] with a non-empty request id: the status is the one
    given, the body carries the id under [request_id] (replacing one the
    body already had), the [X-Request-Id] header is the id, every other
    field of a dict body is kept, and a body that is not a dict is put under
    [message]. *)
Theorem response_with_request_id status body rid :
  rid ≠ "" →
  let r := _response status body (Some rid) in
  statusCode r = status
  ∧ body_field r "request_id" = Some (PStr rid)
  ∧ headers r = [("Content-Type", "application/json"); ("X-Request-Id", rid)]
  ∧ (∀ d k, body = PDict d → k ≠ "request_id" → body_field r k = dict_get d k)
  ∧ ((∀ d, body ≠ PDict d) → body_field r "message" = Some body).
Proof.
  intros Hrid r. subst r. unfold body_field, _response. cbn [statusCode headers resp_body].
  rewrite (truthy_str _ Hrid).
  split; [done|]. split; [by rewrite dict_get_set_eq|]. split; [done|]. split.
  - intros d k -> Hk. rewrite dict_get_set_ne; [done|congruence].
  - intros Hnd. destruct body; try done. by destruct (Hnd kvs).
Qed.

Lemma response_with_request_id_witness :
  let r := _response 409 (PDict [("request_id", PStr "old"); ("n", PInt 1)])
             (Some "req-1") in
  statusCode r = 409
  ∧ body_field r "request_id" = Some (PStr "req-1")
  ∧ body_field r "n" = Some (PInt 1).
Proof.
  destruct (response_with_request_id 409
              (PDict [("request_id", PStr "old"); ("n", PInt 1)]) "req-1"
              ltac:(discriminate)) as (H1 & H2 & _ & H4 & _).
  split; [exact H1|]. split; [exact H2|].
  exact (H4 _ "n" eq_refl ltac:(discriminate)).
Defined.

(** ** Rejections that leave no trace *)

(** X2. A body that is not JSON: [ingest_event] returns the 400
    [Invalid JSON body] with the decoder's message as [detail] and the
    request id, and the world (table, queue, collaborator calls) is as it
    was. *)
Theorem ingest_event_invalid_json L E event context w text msg :
  body event = Some (PStr text) →
  json_loads L text = inl msg →
  ingest_event L E event context w
  = (Returned (_response 400
                 (PDict [("error", PStr "Invalid JSON body");
                         ("detail", PStr msg)])
                 (Some (request_id_of E context))), w).
Proof.
  intros Hb Hj. unfold ingest_event, try_except, _parse_body.
  by rewrite Hb, Hj.
Qed.

Lemma ingest_event_invalid_json_witness :
  ingest_event sample_library (sample_env "u-1") (http_post "not-json")
    sample_context empty_world
  = (Returned (_response 400
                 (PDict [("error", PStr "Invalid JSON body");
                         ("detail",
                          PStr "Expecting value: line 1 column 1 (char 0)")])
                 (Some "req-1")), empty_world).
Proof.
  apply (ingest_event_invalid_json sample_library (sample_env "u-1")
           (http_post "not-json") sample_context empty_world "not-json").
  - reflexivity.
  - vm_compute. reflexivity.
Defined.

(** X3. A request without a usable device id (no path parameters, no
    [device_id] among them, or one that is empty or all whitespace):
    [get_device_events] returns the 400 with the request id and makes no
    call to the store. *)
Theorem get_device_events_blank_device L E event context w :
  requested_device event = "" →
  get_device_events L E event context w
  = (Returned (_response 400
                 (PDict [("error", PStr "device_id path parameter is required")])
                 (Some (request_id_of E context))), w).
Proof.
  intros Hd. unfold get_device_events. fold (requested_device event).
  by rewrite Hd.
Qed.

Lemma get_device_events_blank_device_witness :
  get_device_events sample_library (sample_env "u-1") (http_get "   " [])
    sample_context two_devices
  = (Returned (_response 400
                 (PDict [("error", PStr "device_id path parameter is required")])
                 (Some "req-1")), two_devices).
Proof.
  apply (get_device_events_blank_device sample_library (sample_env "u-1")
           (http_get "   " []) sample_context two_devices).
  vm_compute. reflexivity.
Defined.

(** ** Failures of the collaborators *)

(** X4. The store refusing the write with a service error other than the
    failed condition: [ingest_event] returns the 500 [Failed to store event]
    with the request id, the table and the queue are as they were, and
    nothing is published. *)
Theorem ingest_event_store_failure L E event context w p code msg :
  parse_outcome L event = Returned p →
  put_fault E = Some (ClientError code msg) →
  code ≠ "ConditionalCheckFailedException" →
  let r := ingest_event L E event context w in
  r.1 = Returned (_response 500 (PDict [("error", PStr "Failed to store event")])
                    (Some (request_id_of E context)))
  ∧ table r.2 = table w ∧ queue r.2 = queue w
  ∧ new_calls w r.2
      [CallPutItem (make_item E p (request_id_of E context)) "SK"
         (Some (ClientError code msg))].
Proof.
  intros Hp Hf Hc. cbn zeta.
  unfold ingest_event, try_except. rewrite parse_body_pure, Hp.
  unfold put_item. rewrite Hf.
  apply String.eqb_neq in Hc. rewrite Hc. done.
Qed.

Lemma ingest_event_store_failure_witness :
  let r := ingest_event sample_library (store_down_env "u-1")
             (http_post (reading_body "d1" 1000)) sample_context empty_world in
  status_of r.1 = Some 500 ∧ table r.2 = ∅ ∧ queue r.2 = [].
Proof.
  destruct (ingest_event_store_failure sample_library (store_down_env "u-1")
              (http_post (reading_body "d1" 1000)) sample_context empty_world
              (reading_payload "d1" 1000)
              "ProvisionedThroughputExceededException"
              "The level of configured provisioned throughput was exceeded"
              eq_refl eq_refl ltac:(discriminate)) as (H1 & H2 & H3 & _).
  cbn zeta. rewrite H1. split; [reflexivity|]. split; [exact H2|exact H3].
Defined.

(** X5. The queue refusing the message after the write went through: the
    record is stored, the queue is as it was, and [ingest_event] returns the
    500 [SQS Enqueue failed,] with the text of the error. *)
Theorem ingest_event_stored_but_not_queued L E event context w p code msg :
  parse_outcome L event = Returned p →
  put_fault E = None →
  table w !! event_key (device_id p) (ts p) = None →
  send_fault E = Some (ClientError code msg) →
  let r := ingest_event L E event context w in
  r.1 = Returned (_response 500
                    (PDict [("message", PStr "SQS Enqueue failed,");
                            ("error", PStr msg)]) None)
  ∧ table r.2 = <[event_key (device_id p) (ts p)
                  := make_item E p (request_id_of E context)]> (table w)
  ∧ queue r.2 = queue w.
Proof.
  intros Hp Hput Hfresh Hsend. cbn zeta.
  unfold ingest_event, try_except. rewrite parse_body_pure, Hp.
  unfold put_item. rewrite Hput, item_key_make_item, Hfresh. cbn.
  unfold send_message. rewrite Hsend. done.
Qed.

Lemma ingest_event_stored_but_not_queued_witness :
  let r := ingest_event sample_library (queue_down_env "u-1")
             (http_post (reading_body "d1" 1000)) sample_context empty_world in
  status_of r.1 = Some 500
  ∧ is_Some (table r.2 !! event_key "d1" 1000)
  ∧ queue r.2 = [].
Proof.
  destruct (ingest_event_stored_but_not_queued sample_library
              (queue_down_env "u-1") (http_post (reading_body "d1" 1000))
              sample_context empty_world (reading_payload "d1" 1000)
              "AWS.SimpleQueueService.NonExistentQueue"
              "The specified queue does not exist."
              eq_refl eq_refl eq_refl eq_refl) as (H1 & H2 & H3).
  cbn zeta. rewrite H1, H2. split; [reflexivity|].
  split; [|exact H3]. rewrite lookup_insert_eq. eauto.
Defined.

(** X6. The store failing a query with a service error:
    [get_device_events] returns the 500 [Failed to retrieve events] with the
    request id. *)
Theorem get_device_events_store_failure L E event context w lim code msg :
  requested_device event ≠ "" →
  requested_limit event = Returned lim →
  query_fault E = Some (ClientError code msg) →
  (get_device_events L E event context w).1
  = Returned (_response 500 (PDict [("error", PStr "Failed to retrieve events")])
                (Some (request_id_of E context))).
Proof.
  intros Hd Hl Hf. rewrite (get_device_events_query _ _ _ _ _ lim Hd Hl).
  unfold try_except, query. by rewrite Hf.
Qed.

Lemma get_device_events_store_failure_witness :
  (get_device_events sample_library (store_down_env "u-1") (http_get "d1" [])
     sample_context two_devices).1
  = Returned (_response 500 (PDict [("error", PStr "Failed to retrieve events")])
                (Some "req-1")).
Proof.
  apply (get_device_events_store_failure sample_library (store_down_env "u-1")
           (http_get "d1" []) sample_context two_devices 100
           "ProvisionedThroughputExceededException"
           "The level of configured provisioned throughput was exceeded").
  - vm_compute. discriminate.
  - reflexivity.
  - reflexivity.
Defined.

Lemma get_device_events_queue L E event context w :
  queue (get_device_events L E event context w).2 = queue w.
Proof.
  unfold get_device_events.
  destruct (negb _); [done|].
  unfold bind at 1, lift at 1.
  destruct (match _ !! "limit" with Some _ => _ | None => _ end) as [lim|];
    [|done].
  unfold try_except, query.
  destruct (query_fault E) as [e|]; [by destruct e|].
  destruct (lim <? 1); [done|].
  unfold bind, lift, ret. by destruct (convert_rows _ _).
Qed.

(** X7. [get_device_events] only reads: whatever the request and the
    faults, the table and the queue are as they were. *)
Theorem get_device_events_read_only L E event context w :
  table (get_device_events L E event context w).2 = table w
  ∧ queue (get_device_events L E event context w).2 = queue w.
Proof.
  split; [apply get_device_events_table|apply get_device_events_queue].
Qed.

(** ** The schema *)

Lemma checked_str_spec field lo hi data s :
  after_validator field PStr not_empty (str_field field lo hi data) = Valid s →
  dict_get data field = Some (PStr s)
  ∧ (lo ≤ String.length s ≤ hi)%nat
  ∧ strip s ≠ "".
Proof.
  unfold after_validator, str_field, not_empty.
  destruct (dict_get data field) as [[]|]; try done.
  destruct (String.length s0 <? lo)%nat eqn:Hlo; [done|].
  destruct (hi <? String.length s0)%nat eqn:Hhi; [done|].
  cbn [truthy]. destruct (String.eqb_spec (strip s0) ""); [done|].
  cbn [negb]. intros [= <-].
  apply Nat.ltb_ge in Hlo, Hhi. done.
Qed.

(** X8. What [_parse_body] lets through: the body was a string that
    decoded to an object; [device_id] and [type] are the strings of the
    object as they were given (nothing is trimmed), of 1 to 128 and 1 to 64
    characters and not all whitespace; and [ts] is positive. *)
Theorem parsed_payload_satisfies_schema L event p :
  parse_outcome L event = Returned p →
  (1 ≤ String.length (device_id p) ≤ 128)%nat ∧ strip (device_id p) ≠ ""
  ∧ (1 ≤ String.length (type p) ≤ 64)%nat ∧ strip (type p) ≠ ""
  ∧ 0 < ts p
  ∧ ∃ text data,
      body event = Some (PStr text) ∧ json_loads L text = inr (PDict data)
      ∧ dict_get data "device_id" = Some (PStr (device_id p))
      ∧ dict_get data "type" = Some (PStr (type p)).
Proof.
  intros Hp. pose proof (parse_outcome_ts_pos _ _ _ Hp) as Hts.
  unfold parse_outcome, _parse_body in Hp.
  destruct (body event) as [[]|] eqn:Hb; try done.
  destruct (json_loads L s) as [msg|[]] eqn:Hj; try done.
  destruct (EventPayload_init L kvs) as [errs|p'] eqn:Hinit; [done|].
  injection Hp as ->.
  apply EventPayload_init_inr in Hinit as (Hd & Hty & _).
  apply checked_str_spec in Hd as (Hd1 & Hd2 & Hd3).
  apply checked_str_spec in Hty as (Ht1 & Ht2 & Ht3).
  repeat split; try done; try lia. by exists s, kvs.
Qed.

Lemma parsed_payload_satisfies_schema_witness :
  (1 ≤ String.length "d1" ≤ 128)%nat ∧ strip "d1" ≠ ""
  ∧ (1 ≤ String.length "temp" ≤ 64)%nat ∧ strip "temp" ≠ ""
  ∧ 0 < 1000.
Proof.
  destruct (parsed_payload_satisfies_schema sample_library
              (http_post (reading_body "d1" 1000)) (reading_payload "d1" 1000)
              eq_refl) as (H1 & H2 & H3 & H4 & H5 & _).
  exact (conj H1 (conj H2 (conj H3 (conj H4 H5)))).
Defined.

(** X9. What [_parse_body] accepts: an object whose [device_id] and [type]
    are strings within the length bounds and not all whitespace, whose
    [value] is a float, whose [ts] is a positive integer and whose [raw] is
    absent, null or an object, gives the payload with exactly these
    values. *)
Theorem well_formed_body_is_parsed L event text data d ty f t r :
  body event = Some (PStr text) →
  json_loads L text = inr (PDict data) →
  dict_get data "device_id" = Some (PStr d) →
  (1 ≤ String.length d ≤ 128)%nat → strip d ≠ "" →
  dict_get data "type" = Some (PStr ty) →
  (1 ≤ String.length ty ≤ 64)%nat → strip ty ≠ "" →
  dict_get data "value" = Some (PFloat f) →
  dict_get data "ts" = Some (PInt t) → 0 < t →
  check_raw data = Valid r →
  parse_outcome L event
  = Returned {| device_id := d; type := ty; value := f; ts := t; raw := r |}.
Proof.
  intros Hb Hj Hd Hdl Hds Hty Htl Hts Hv Ht Hpos Hr.
  unfold parse_outcome, _parse_body. rewrite Hb, Hj.
  assert (∀ field lo hi s,
            dict_get data field = Some (PStr s) →
            (lo ≤ String.length s ≤ hi)%nat → strip s ≠ "" →
            after_validator field PStr not_empty (str_field field lo hi data)
            = Valid s) as Hstr.
  { intros field lo hi s Hs [Hlo Hhi] Hne.
    unfold after_validator, str_field, not_empty. rewrite Hs.
    assert ((String.length s <? lo)%nat = false) as -> by by apply Nat.ltb_ge.
    assert ((hi <? String.length s)%nat = false) as -> by by apply Nat.ltb_ge.
    by rewrite (truthy_str _ Hne). }
  unfold EventPayload_init, check_device_id, check_type, check_value, check_ts.
  rewrite (Hstr "device_id" 1%nat 128%nat d Hd Hdl Hds).
  rewrite (Hstr "type" 1%nat 64%nat ty Hty Htl Hts).
  unfold float_field, int_field, after_validator, ts_must_be_positive.
  rewrite Hv, Ht, Hr.
  assert (t <=? 0 = false) as -> by by apply Z.leb_gt.
  reflexivity.
Qed.

Lemma well_formed_body_is_parsed_witness :
  parse_outcome sample_library
    (http_post (reading_raw_body "d1" 2000
                  (json_object [("unit", json_string "C")])))
  = Returned {| device_id := "d1"; type := "temp"; value := f21_5; ts := 2000;
                raw := Some [("unit", PStr "C")] |}.
Proof.
  apply (well_formed_body_is_parsed sample_library _
           (reading_raw_body "d1" 2000 (json_object [("unit", json_string "C")]))
           [("device_id", PStr "d1"); ("type", PStr "temp");
            ("value", PFloat f21_5); ("ts", PInt 2000);
            ("raw", PDict [("unit", PStr "C")])]).
  - reflexivity.
  - vm_compute. reflexivity.
  - reflexivity.
  - cbn. lia.
  - vm_compute. discriminate.
  - reflexivity.
  - cbn. lia.
  - vm_compute. discriminate.
  - reflexivity.
  - reflexivity.
  - lia.
  - reflexivity.
Defined.

(** ** The table and the queue over time *)

(** One [ingest_event] either leaves table and queue as they were, or puts
    the item of its payload under the payload's key, which held no record
    with an [SK], and then appends at most the payload's message. *)
Lemma ingest_event_effect L E event context w :
  let w' := (ingest_event L E event context w).2 in
  (table w' = table w ∧ queue w' = queue w)
  ∨ ∃ p, parse_outcome L event = Returned p
         ∧ (∀ old, table w !! event_key (device_id p) (ts p) = Some old →
                   dict_get old "SK" = None)
         ∧ table w' = <[event_key (device_id p) (ts p)
                        := make_item E p (request_id_of E context)]> (table w)
         ∧ (queue w' = queue w
            ∨ queue w' = queue w ++ [make_sqs_msg p (request_id_of E context)]).
Proof.
  cbn zeta. unfold ingest_event, try_except. rewrite parse_body_pure.
  destruct (parse_outcome L event) as [p|e] eqn:Hp.
  - unfold put_item. rewrite item_key_make_item.
    destruct (put_fault E) as [e|].
    { left. destruct e; try done. by destruct (String.eqb _ _). }
    destruct (table w !! event_key (device_id p) (ts p)) as [old|] eqn:Hold.
    + destruct (dict_get old "SK") eqn:Hsk; [by left|].
      right. exists p. split; [done|]. split; [intros ? ?; congruence|]. cbn.
      unfold send_message. destruct (send_fault E) as [[]|]; cbn; eauto.
    + right. exists p. split; [done|]. split; [intros ? ?; congruence|]. cbn.
      unfold send_message. destruct (send_fault E) as [[]|]; cbn; eauto.
  - left. by destruct e.
Qed.

(** X10. Records are never overwritten or removed: a record that has an
    [SK] attribute (as every record written through [put_item] has) is still
    there, unchanged, after any [ingest_event], whatever the request and the
    faults. *)
Theorem ingest_event_keeps_records L E event context w k it :
  table w !! k = Some it →
  is_Some (dict_get it "SK") →
  table (ingest_event L E event context w).2 !! k = Some it.
Proof.
  intros Hk [sk Hsk].
  destruct (ingest_event_effect L E event context w)
    as [[-> _]|(p & _ & Hold & -> & _)]; [done|].
  destruct (decide (event_key (device_id p) (ts p) = k)) as [<-|Hne].
  - rewrite (Hold _ Hk) in Hsk. done.
  - by rewrite lookup_insert_ne.
Qed.

Lemma ingest_event_keeps_records_witness :
  table (ingest_event sample_library (sample_env "u-2")
           (http_post (reading_body "d1" 1000)) None two_devices).2
    !! event_key "d1" 1000
  = Some (make_item (sample_env "req-0") (reading_payload "d1" 1000) "req-1").
Proof.
  apply (ingest_event_keeps_records sample_library (sample_env "u-2")
           (http_post (reading_body "d1" 1000)) None two_devices).
  - vm_compute. reflexivity.
  - vm_compute. eauto.
Defined.

Lemma msg_key_make_sqs_msg p rid :
  msg_key (make_sqs_msg p rid) = Some (event_key (device_id p) (ts p)).
Proof. reflexivity. Qed.

Lemma reachable_queue_stored L w :
  reachable L w →
  Forall (λ msg, ∃ k, msg_key msg = Some k ∧ is_Some (table w !! k)) (queue w).
Proof.
  induction 1 as [|E event context w Hreach IH|E event context w _ IH].
  - constructor.
  - destruct (ingest_event_effect L E event context w)
      as [[-> ->]|(p & _ & _ & -> & Hq)]; [done|].
    assert (Forall (λ msg, ∃ k, msg_key msg = Some k
                     ∧ is_Some (<[event_key (device_id p) (ts p)
                                  := make_item E p (request_id_of E context)]>
                                  (table w) !! k)) (queue w)) as IH'.
    { eapply Forall_impl; [done|]. intros msg (k & Hk & Hs).
      exists k. split; [done|]. rewrite lookup_insert_is_Some.
      destruct (decide (event_key (device_id p) (ts p) = k)); auto. }
    destruct Hq as [->| ->]; [done|].
    apply Forall_app. split; [done|]. constructor; [|constructor].
    exists (event_key (device_id p) (ts p)). split; [done|].
    rewrite lookup_insert_eq. eauto.
  - by rewrite get_device_events_table, get_device_events_queue.
Qed.

(** X11. Nothing is queued that is not stored: in every world the handlers
    can reach, each message on the queue is about a [(device_id, ts)] whose
    record is in the table. *)
Theorem queued_messages_are_stored L w :
  reachable L w →
  Forall (λ msg, ∃ k, msg_key msg = Some k ∧ is_Some (table w !! k)) (queue w).
Proof. apply reachable_queue_stored. Qed.

Lemma queued_messages_are_stored_witness :
  Forall (λ msg, ∃ k, msg_key msg = Some k
                      ∧ is_Some (table two_devices !! k)) (queue two_devices).
Proof.
  apply (queued_messages_are_stored sample_library two_devices).
  apply reach_ingest, reach_ingest, reach_empty.
Defined.

(** X12. No event is queued twice: in every world the handlers can reach,
    the messages on the queue are about pairwise different
    [(device_id, ts)]. *)
Theorem queued_messages_are_distinct L w :
  reachable L w → NoDup (msg_key <$> queue w).
Proof.
  induction 1 as [|E event context w Hreach IH|E event context w _ IH].
  - constructor.
  - destruct (ingest_event_effect L E event context w)
      as [[_ ->]|(p & _ & Hold & _ & [->| ->])]; [done..|].
    rewrite fmap_app. apply NoDup_app. split; [done|]. split.
    + intros k Hk Hin. apply list_elem_of_singleton in Hin. subst k.
      apply list_elem_of_fmap in Hk as (msg & Hmsg & Hin).
      pose proof (reachable_queue_stored L w Hreach) as Hst.
      rewrite Forall_forall in Hst.
      destruct (Hst msg Hin) as (k & Hk & [old Hold']).
      rewrite msg_key_make_sqs_msg in Hmsg. rewrite Hk in Hmsg.
      injection Hmsg as <-.
      pose proof (reachable_keyed L w Hreach _ _ Hold') as Hkeyed.
      cbn in Hkeyed.
      apply keyed_item_spec in Hkeyed as (_ & _ & _ & _ & _ & _ & _ & Hsk).
      apply str_attr_Some in Hsk. rewrite (Hold _ Hold') in Hsk. done.
    + apply NoDup_singleton.
  - by rewrite get_device_events_queue.
Qed.

Lemma queued_messages_are_distinct_witness :
  NoDup (msg_key <$> queue two_devices).
Proof.
  apply (queued_messages_are_distinct sample_library two_devices).
  apply reach_ingest, reach_ingest, reach_empty.
Defined.

(** ** Point queries *)

Lemma string_leb_refl (s : string) : String.leb s s = true.
Proof. unfold String.leb. by rewrite string_compare_refl. Qed.

(** With both bounds equal, the key condition holds of one sort key only. *)
Lemma point_condition_eval pk a it :
  a ≠ "" →
  eval_condition (make_key_condition pk (Some a) (Some a)) it = true
  ↔ str_attr it "PK" = Some pk ∧ str_attr it "SK" = Some ("TS#" +:+ a).
Proof.
  intros Ha. unfold make_key_condition.
  cbn [from_option]. rewrite (truthy_str _ Ha). cbn [andb default id eval_condition].
  destruct (str_attr it "PK") as [pk'|], (str_attr it "SK") as [sk|];
    rewrite ?andb_true_iff, ?String.eqb_eq; try (split; [intros [? ?]|intros [? ?]]; done).
  split.
  - intros [-> [H1 H2]]. by rewrite (String.leb_antisym _ _ H1 H2).
  - intros [[= ->] [= ->]]. by rewrite string_leb_refl.
Qed.

Lemma list_singleton_of_elems {A} (l : list A) (a : A) :
  NoDup l → (∀ x, x ∈ l ↔ x = a) → l = [a].
Proof.
  intros Hnd Hl. destruct l as [|x l].
  - pose proof (proj2 (Hl a) eq_refl) as Hin. by apply elem_of_nil in Hin.
  - assert (x = a) as -> by (apply Hl; by left).
    destruct l as [|y l]; [done|].
    assert (y = a) as -> by (apply Hl; right; by left).
    apply NoDup_cons in Hnd as [Hnd _]. destruct Hnd. by left.
Qed.

Lemma point_rows L tbl event t it :
  event_table L tbl →
  tbl !! event_key (requested_device event) t = Some it →
  default ∅ (queryStringParameters event) !! "from_ts" = Some (str_of_int t) →
  default ∅ (queryStringParameters event) !! "to_ts" = Some (str_of_int t) →
  matching_rows tbl (requested_condition event) false = [it].
Proof.
  intros Ht Hk Hfrom Hto.
  apply list_singleton_of_elems;
    [by apply matching_rows_NoDup, (event_table_keyed L)|].
  intros x. rewrite matching_rows_elem. unfold requested_condition.
  rewrite Hfrom, Hto, (point_condition_eval _ _ _ (str_of_int_nonempty t)).
  split.
  - intros [[k Hx] [Hpk Hsk]].
    destruct (event_table_lookup L tbl _ x Ht Hx) as [Hkeyed _].
    apply keyed_item_spec in Hkeyed as (_ & _ & _ & _ & _ & _ & Hpk' & Hsk').
    rewrite Hpk in Hpk'. rewrite Hsk in Hsk'.
    assert (k = event_key (requested_device event) t) as ->.
    { destruct k as [k1 k2]. cbn in Hpk', Hsk'. unfold event_key. congruence. }
    congruence.
  - intros ->. split; [eauto|].
    destruct (event_table_lookup L tbl _ it Ht Hk) as [Hkeyed _].
    by apply keyed_item_spec in Hkeyed as (_ & _ & _ & _ & _ & _ & Hpk' & Hsk').
Qed.

Lemma point_query L E event context w t it lim :
  event_table L (table w) →
  table w !! event_key (requested_device event) t = Some it →
  requested_device event ≠ "" →
  default ∅ (queryStringParameters event) !! "from_ts" = Some (str_of_int t) →
  default ∅ (queryStringParameters event) !! "to_ts" = Some (str_of_int t) →
  requested_limit event = Returned lim → 1 ≤ lim →
  query_fault E = None →
  ∃ resp,
    (get_device_events L E event context w).1 = Returned resp
    ∧ statusCode resp = 200
    ∧ events_of resp = [returned_event L it]
    ∧ event_ts (returned_event L it) = Some t
    ∧ body_field resp "count" = Some (PInt 1).
Proof.
  intros Ht Hk Hd Hfrom Hto Hlim Hpos Hfault.
  pose proof (point_rows L _ event t it Ht Hk Hfrom Hto) as Hrows.
  destruct (event_table_lookup L _ _ it Ht Hk) as [Hkeyed Hconv].
  apply keyed_item_spec in Hkeyed as (d' & t' & Heq & _ & Hts & _).
  apply event_key_inj in Heq as [_ <-].
  assert (take (Z.to_nat lim) [it] = [it]) as Htake
    by (destruct (Z.to_nat lim) as [|[|?]] eqn:?; [lia|done..]).
  destruct (convert_rows_converts L [it]) as (rs & Hrs & Heq).
  { intros x ->%list_elem_of_singleton. done. }
  eexists. split; [|split; [|split; [|split]]].
  - rewrite (get_device_events_query _ _ _ _ _ lim Hd Hlim).
    unfold try_except, query. rewrite Hfault.
    assert (lim <? 1 = false) as -> by by apply Z.ltb_ge.
    unfold bind, lift, ret. cbn [Items table log_call].
    rewrite Hrows, Htake, Hrs. reflexivity.
  - reflexivity.
  - rewrite events_of_response.
    change (dict_get _ "events") with (Some (PList (PDict <$> rs))).
    cbv beta iota. by rewrite Heq.
  - by apply returned_event_ts.
  - rewrite response_field by done.
    change (dict_get _ "count") with (Some (PInt (Z.of_nat (length rs)))).
    assert (length rs = 1%nat) as ->; [|done].
    by rewrite <-(length_fmap PDict), Heq.
Qed.

(** X13. A point query is exact, whatever the digit counts: on a table of
    events, a request with [from_ts] and [to_ts] both the timestamp of a
    stored record of the device returns that record's event and no other,
    with [count] 1. *)
Theorem point_query_returns_the_record L E event context w t it lim :
  event_table L (table w) →
  table w !! event_key (requested_device event) t = Some it →
  requested_device event ≠ "" →
  default ∅ (queryStringParameters event) !! "from_ts" = Some (str_of_int t) →
  default ∅ (queryStringParameters event) !! "to_ts" = Some (str_of_int t) →
  requested_limit event = Returned lim → 1 ≤ lim →
  query_fault E = None →
  ∃ resp,
    (get_device_events L E event context w).1 = Returned resp
    ∧ statusCode resp = 200
    ∧ events_of resp = [returned_event L it]
    ∧ event_ts (returned_event L it) = Some t
    ∧ body_field resp "count" = Some (PInt 1).
Proof. apply point_query. Qed.

Lemma point_query_returns_the_record_witness :
  ∃ resp,
    (get_device_events sample_library (sample_env "u-1") (point_request "d1" 9)
       sample_context nine_and_ten).1 = Returned resp
    ∧ statusCode resp = 200
    ∧ events_of resp
      = [returned_event sample_library
           (make_item (sample_env "req-0") (reading_payload "d1" 9) "req-1")]
    ∧ event_ts (returned_event sample_library
                  (make_item (sample_env "req-0") (reading_payload "d1" 9)
                     "req-1")) = Some 9
    ∧ body_field resp "count" = Some (PInt 1).
Proof.
  apply (point_query_returns_the_record sample_library (sample_env "u-1")
           (point_request "d1" 9) sample_context nine_and_ten 9 _ 100).
  - vm_compute. reflexivity.
  - vm_compute. reflexivity.
  - vm_compute. discriminate.
  - vm_compute. reflexivity.
  - vm_compute. reflexivity.
  - reflexivity.
  - lia.
  - reflexivity.
Defined.

(** ** Writing, then reading *)

Lemma event_table_insert L tbl k it :
  event_table L tbl → keyed_item k it = true → converts L it = true →
  event_table L (<[k := it]> tbl).
Proof.
  unfold event_table. rewrite !forallb_forall. intros Hall Hk Hc [k' it'] Hin.
  apply list_elem_of_In, elem_of_map_to_list, lookup_insert_Some in Hin
    as [[<- <-]|[_ Hin]].
  - cbn. by rewrite Hk, Hc.
  - by apply Hall, list_elem_of_In, elem_of_map_to_list.
Qed.

Lemma make_item_numbers E p rid :
  dict_get (make_item E p rid) "value"
  = Some (PDecimal (DecimalOfFloat (value p)))
  ∧ dict_get (make_item E p rid) "ts" = Some (PInt (ts p))
  ∧ dict_get (make_item E p rid) "ingested_at"
    = Some (PDecimal (DecimalOfFloat (ingested_at_ms E))).
Proof. by rewrite !make_item_get. Qed.

(** An item written at a finite clock reading can be read back. *)
Lemma converts_make_item L E p rid :
  is_Some (float_trunc (ingested_at_ms E)) →
  converts L (make_item E p rid) = true.
Proof.
  intros [i Hi]. unfold converts, convert_row.
  destruct (make_item_numbers E p rid) as (Hv & Ht & Hi').
  rewrite !row_from_store_get, Hv, Ht, Hi'.
  cbn [fmap option_fmap option_map from_store outcome_bind py_float py_int].
  by rewrite Hi.
Qed.

Lemma parse_outcome_device L event p :
  parse_outcome L event = Returned p → strip (device_id p) ≠ "".
Proof.
  unfold parse_outcome, _parse_body.
  destruct (body event) as [[]|]; try done.
  destruct (json_loads L s) as [msg|[]]; try done.
  destruct (EventPayload_init L kvs) as [errs|p'] eqn:Hinit; [done|].
  intros [= ->].
  apply EventPayload_init_inr in Hinit as (Hd & _).
  by apply checked_str_spec in Hd as (_ & _ & ?).
Qed.

(** X14. Write, then read back: after [ingest_event] has stored a reading
    (finite clock, no record yet under the key) in a table of events, the
    point query for its device and timestamp returns exactly the event of
    the item just written, with the reading's [ts], whatever the other
    records are. *)
Theorem ingest_then_point_query L E1 E2 event context1 q context2 w p lim :
  event_table L (table w) →
  parse_outcome L event = Returned p →
  put_fault E1 = None →
  table w !! event_key (device_id p) (ts p) = None →
  is_Some (float_trunc (ingested_at_ms E1)) →
  requested_device q = device_id p →
  default ∅ (queryStringParameters q) !! "from_ts" = Some (str_of_int (ts p)) →
  default ∅ (queryStringParameters q) !! "to_ts" = Some (str_of_int (ts p)) →
  requested_limit q = Returned lim → 1 ≤ lim →
  query_fault E2 = None →
  let w1 := (ingest_event L E1 event context1 w).2 in
  let item := make_item E1 p (request_id_of E1 context1) in
  ∃ resp,
    (get_device_events L E2 q context2 w1).1 = Returned resp
    ∧ statusCode resp = 200
    ∧ events_of resp = [returned_event L item]
    ∧ event_ts (returned_event L item) = Some (ts p).
Proof.
  intros Ht Hp Hput Hfresh Hclock Hd Hfrom Hto Hlim Hpos Hfault w1 item.
  assert (table w1 = <[event_key (device_id p) (ts p) := item]> (table w))
    as Hw1.
  { subst w1 item. unfold ingest_event, try_except.
    rewrite parse_body_pure, Hp. unfold put_item.
    rewrite Hput, item_key_make_item, Hfresh. cbn.
    unfold send_message. by destruct (send_fault E1) as [[]|]. }
  assert (device_id p ≠ "") as Hne.
  { apply parse_outcome_device in Hp. by intros Heq; rewrite Heq in Hp. }
  destruct (point_query L E2 q context2 w1 (ts p) item lim)
    as (resp & H1 & H2 & H3 & H4 & _); try done.
  - rewrite Hw1. apply event_table_insert; [done| |by apply converts_make_item].
    apply keyed_make_item. by eapply parse_outcome_ts_pos.
  - rewrite Hw1, Hd. apply lookup_insert_eq.
  - by rewrite Hd.
  - by exists resp.
Qed.

Lemma ingest_then_point_query_witness :
  ∃ resp,
    (get_device_events sample_library (sample_env "u-2")
       (point_request "d1" 1000) sample_context
       (ingest_event sample_library (sample_env "u-1")
          (http_post (reading_body "d1" 1000)) sample_context
          nine_and_ten).2).1 = Returned resp
    ∧ statusCode resp = 200
    ∧ events_of resp
      = [returned_event sample_library
           (make_item (sample_env "u-1") (reading_payload "d1" 1000) "req-1")]
    ∧ event_ts (returned_event sample_library
                  (make_item (sample_env "u-1") (reading_payload "d1" 1000)
                     "req-1")) = Some 1000.
Proof.
  apply (ingest_then_point_query sample_library (sample_env "u-1")
           (sample_env "u-2") (http_post (reading_body "d1" 1000))
           sample_context (point_request "d1" 1000) sample_context
           nine_and_ten (reading_payload "d1" 1000) 100).
  - vm_compute. reflexivity.
  - vm_compute. reflexivity.
  - reflexivity.
  - vm_compute. reflexivity.
  - vm_compute. eauto.
  - vm_compute. reflexivity.
  - vm_compute. reflexivity.
  - vm_compute. reflexivity.
  - reflexivity.
  - lia.
  - reflexivity.
Defined.

(** ** The shape of a query response *)

(** A 200 of [get_device_events], taken apart. *)
Lemma get_device_events_200 L E event context w resp :
  (get_device_events L E event context w).1 = Returned resp →
  statusCode resp = 200 →
  ∃ lim items lek,
    requested_limit event = Returned lim ∧ 1 ≤ lim
    ∧ convert_rows L
        (row_from_store <$>
         take (Z.to_nat lim)
           (matching_rows (table w) (requested_condition event) false))
      = Returned items
    ∧ resp = _response 200
               (PDict [("device_id", PStr (requested_device event));
                       ("count", PInt (Z.of_nat (length items)));
                       ("events", PList (PDict <$> items));
                       ("last_evaluated_key", lek)])
               (Some (request_id_of E context)).
Proof.
  destruct (decide (requested_device event = "")) as [Hd|Hd].
  { unfold get_device_events. fold (requested_device event). rewrite Hd.
    by intros [= <-]. }
  destruct (requested_limit event) as [lim|e] eqn:Hl.
  2:{ unfold get_device_events. fold (requested_device event).
      rewrite (truthy_str _ Hd). cbn [negb].
      fold (requested_limit event). rewrite Hl. done. }
  rewrite (get_device_events_query _ _ _ _ _ lim Hd Hl).
  unfold try_except, query.
  destruct (query_fault E) as [e|].
  { destruct e; try done. by intros [= <-]. }
  destruct (lim <? 1) eqn:Hlim; [done|]. apply Z.ltb_ge in Hlim.
  unfold bind, lift, ret. cbn [Items table log_call LastEvaluatedKey].
  destruct (convert_rows L _) as [items|] eqn:Hitems; [|done].
  intros [= <-] _. by eexists lim, items, _.
Qed.

(** X15. In every 200 of [get_device_events], [count] is the number of
    events in the response, which is at most the page size asked for (100
    when no [limit] is given), and [device_id] is the requested id with its
    surrounding whitespace stripped. *)
Theorem query_response_count L E event context w resp :
  (get_device_events L E event context w).1 = Returned resp →
  statusCode resp = 200 →
  ∃ lim,
    requested_limit event = Returned lim
    ∧ body_field resp "count" = Some (PInt (Z.of_nat (length (events_of resp))))
    ∧ (length (events_of resp) ≤ Z.to_nat lim)%nat
    ∧ body_field resp "device_id" = Some (PStr (requested_device event)).
Proof.
  intros Hresp Hst.
  destruct (get_device_events_200 _ _ _ _ _ _ Hresp Hst)
    as (lim & items & lek & Hlim & _ & Hitems & ->).
  exists lim. split; [done|].
  rewrite events_of_response, !response_field by done.
  change (dict_get _ "events") with (Some (PList (PDict <$> items))).
  cbv beta iota. rewrite length_fmap. repeat split.
  apply convert_rows_Forall2, Forall2_length in Hitems.
  rewrite <-Hitems, length_fmap, length_take. lia.
Qed.

Lemma query_response_count_witness :
  ∃ lim,
    requested_limit full_range_request = Returned lim
    ∧ body_field first_hundred "count"
      = Some (PInt (Z.of_nat (length (events_of first_hundred))))
    ∧ (length (events_of first_hundred) ≤ Z.to_nat lim)%nat
    ∧ body_field first_hundred "device_id"
      = Some (PStr (requested_device full_range_request)).
Proof.
  apply (query_response_count sample_library (sample_env "u-1")
           full_range_request sample_context hundred_and_one first_hundred).
  - vm_compute. reflexivity.
  - reflexivity.
Defined.

(** X16. A device without records: with the store answering and a page
    size of at least 1, [get_device_events] returns a 200 with [count] 0, no
    events and no continuation key. *)
Theorem query_of_unknown_device L E event context w lim :
  (∀ k it, table w !! k = Some it →
           str_attr it "PK" ≠ Some ("DEVICE#" +:+ requested_device event)) →
  requested_device event ≠ "" →
  requested_limit event = Returned lim → 1 ≤ lim →
  query_fault E = None →
  (get_device_events L E event context w).1
  = Returned (_response 200
                (PDict [("device_id", PStr (requested_device event));
                        ("count", PInt 0);
                        ("events", PList []);
                        ("last_evaluated_key", PNone)])
                (Some (request_id_of E context))).
Proof.
  intros Hnone Hd Hlim Hpos Hfault.
  assert (matching_rows (table w) (requested_condition event) false = [])
    as Hrows.
  { destruct (matching_rows _ _ _) as [|x l] eqn:Hl; [done|].
    assert (x ∈ matching_rows (table w) (requested_condition event) false)
      as Hx by (rewrite Hl; by left).
    apply matching_rows_elem in Hx as [[k Hk] Hcond].
    apply make_key_condition_pk in Hcond. by destruct (Hnone k x Hk). }
  rewrite (get_device_events_query _ _ _ _ _ lim Hd Hlim).
  unfold try_except, query. rewrite Hfault.
  assert (lim <? 1 = false) as -> by by apply Z.ltb_ge.
  unfold bind, lift, ret. cbn [Items table log_call LastEvaluatedKey].
  rewrite Hrows, take_nil. cbn.
  assert ((Z.to_nat lim <=? 0)%nat = false) as ->; [|done].
  apply Nat.leb_gt. lia.
Qed.

Lemma query_of_unknown_device_witness :
  (get_device_events sample_library (sample_env "u-1") (http_get "unknown" [])
     sample_context empty_world).1
  = Returned (_response 200
                (PDict [("device_id", PStr "unknown");
                        ("count", PInt 0);
                        ("events", PList []);
                        ("last_evaluated_key", PNone)])
                (Some "req-1")).
Proof.
  apply (query_of_unknown_device sample_library (sample_env "u-1")
           (http_get "unknown" []) sample_context empty_world 100).
  - intros k it Hk. change (table empty_world) with (∅ : gmap (string * string) dict) in Hk.
    by rewrite lookup_empty in Hk.
  - vm_compute. discriminate.
  - reflexivity.
  - lia.
  - reflexivity.
Defined.

(** The three numeric attributes of a converted row. *)
Lemma convert_row_types L row row' :
  convert_row L row = Returned row' →
  ∃ f t i, dict_get row' "value" = Some (PFloat f)
           ∧ dict_get row' "ts" = Some (PInt t)
           ∧ dict_get row' "ingested_at" = Some (PInt i).
Proof.
  unfold convert_row.
  destruct (dict_get row "value") as [v|]; [|done]. cbn [outcome_bind].
  destruct (py_float L v) as [f|]; [|done]. cbn [outcome_bind].
  destruct (dict_get row "ts") as [vt|]; [|done]. cbn [outcome_bind].
  destruct (py_int vt) as [t|]; [|done]. cbn [outcome_bind].
  destruct (dict_get row "ingested_at") as [vi|]; [|done]. cbn [outcome_bind].
  destruct (py_int vi) as [i|]; [|done]. cbn [outcome_bind].
  intros [= <-]. exists f, t, i. repeat split.
  - rewrite !dict_get_set_ne by done. apply dict_get_set_eq.
  - rewrite dict_get_set_ne by done. apply dict_get_set_eq.
  - apply dict_get_set_eq.
Qed.

(** X17. Every event in a response of [get_device_events] is an object
    whose [value] is a float and whose [ts] and [ingested_at] are integers,
    and whose other attributes are those of a stored record that matches the
    key condition of the request. *)
Theorem returned_events_are_normalised L E event context w resp v :
  (get_device_events L E event context w).1 = Returned resp →
  v ∈ events_of resp →
  ∃ row f t i it,
    v = PDict row
    ∧ dict_get row "value" = Some (PFloat f)
    ∧ dict_get row "ts" = Some (PInt t)
    ∧ dict_get row "ingested_at" = Some (PInt i)
    ∧ it ∈ matching_rows (table w) (requested_condition event) false
    ∧ ∀ k, k ≠ "value" → k ≠ "ts" → k ≠ "ingested_at" →
           dict_get row k = from_store <$> dict_get it k.
Proof.
  intros Hresp Hv.
  destruct (get_device_events_returns _ _ _ _ _ _ _ Hresp Hv)
    as (it & row & Hin & Hconv & ->).
  destruct (convert_row_types _ _ _ Hconv) as (f & t & i & Hf & Ht & Hi).
  exists row, f, t, i, it. repeat split; try done.
  intros k H1 H2 H3.
  apply convert_row_spec in Hconv as [_ Hother].
  by rewrite Hother, row_from_store_get.
Qed.

Lemma returned_events_are_normalised_witness :
  ∃ row f t i it,
    d1_event = PDict row
    ∧ dict_get row "value" = Some (PFloat f)
    ∧ dict_get row "ts" = Some (PInt t)
    ∧ dict_get row "ingested_at" = Some (PInt i)
    ∧ it ∈ matching_rows (table two_devices)
             (requested_condition (http_get "d1" [])) false
    ∧ ∀ k, k ≠ "value" → k ≠ "ts" → k ≠ "ingested_at" →
           dict_get row k = from_store <$> dict_get it k.
Proof.
  apply (returned_events_are_normalised sample_library (sample_env "u-1")
           (http_get "d1" []) sample_context two_devices d1_page d1_event).
  - vm_compute. reflexivity.
  - vm_compute. apply list_elem_of_here.
Defined.

(** ** Accepted and duplicate submissions *)

(** X18. An accepted submission is queued once, under the identity of the
    stored record: with no record yet under the key and no fault,
    [ingest_event] appends exactly one message to the queue; the message
    carries the payload's [device_id], [type], [value] and [ts], the request
    id that is also in the stored record and in the 201 body, and as
    [event_id] the record's [PK] and [SK] joined by a colon. *)
Theorem accepted_event_is_queued_once L E event context w p :
  parse_outcome L event = Returned p →
  put_fault E = None → send_fault E = None →
  table w !! event_key (device_id p) (ts p) = None →
  let r := ingest_event L E event context w in
  let rid := request_id_of E context in
  ∃ resp msg item,
    r.1 = Returned resp ∧ statusCode resp = 201
    ∧ body_field resp "request_id" = Some (PStr rid)
    ∧ body_field resp "device_id" = Some (PStr (device_id p))
    ∧ body_field resp "ts" = Some (PInt (ts p))
    ∧ queue r.2 = queue w ++ [PDict msg]
    ∧ table r.2 !! event_key (device_id p) (ts p) = Some item
    ∧ dict_get msg "device_id" = Some (PStr (device_id p))
    ∧ dict_get msg "type" = Some (PStr (type p))
    ∧ dict_get msg "value" = Some (PFloat (value p))
    ∧ dict_get msg "ts" = Some (PInt (ts p))
    ∧ dict_get msg "request_id" = Some (PStr rid)
    ∧ dict_get item "request_id" = Some (PStr rid)
    ∧ (∃ pk sk, dict_get item "PK" = Some (PStr pk)
                ∧ dict_get item "SK" = Some (PStr sk)
                ∧ dict_get msg "event_id" = Some (PStr (pk +:+ ":" +:+ sk))).
Proof.
  intros Hp Hput Hsend Hfresh. cbn zeta.
  unfold ingest_event, try_except. rewrite parse_body_pure, Hp.
  unfold put_item. rewrite Hput, item_key_make_item, Hfresh. cbn.
  unfold send_message. rewrite Hsend. cbn.
  eexists _, _, _. split; [reflexivity|]. split; [reflexivity|].
  split; [reflexivity|]. split; [reflexivity|]. split; [reflexivity|].
  split; [reflexivity|]. split; [apply lookup_insert_eq|].
  split; [reflexivity|]. split; [reflexivity|]. split; [reflexivity|].
  split; [reflexivity|]. split; [reflexivity|].
  split; [by rewrite make_item_get|].
  eexists _, _. rewrite !make_item_get by done. repeat split.
Qed.

Lemma accepted_event_is_queued_once_witness :
  let r := ingest_event sample_library (sample_env "u-1")
             (http_post (reading_body "d1" 1000)) sample_context empty_world in
  status_of r.1 = Some 201 ∧ length (queue r.2) = 1%nat.
Proof.
  destruct (accepted_event_is_queued_once sample_library (sample_env "u-1")
              (http_post (reading_body "d1" 1000)) sample_context empty_world
              (reading_payload "d1" 1000) eq_refl eq_refl eq_refl eq_refl)
    as (resp & msg & item & H1 & H2 & _ & _ & _ & H6 & _).
  cbn zeta. rewrite H1, H6. split; [cbn; by rewrite H2|reflexivity].
Defined.

(** X19. A duplicate is detected by the key alone and changes nothing: when
    a record with an [SK] is stored under the key of the payload and the
    store answers, [ingest_event] returns the 409 with the request id in its
    body, whatever the payload's [type], [value] and [raw] are, and table
    and queue are as they were. *)
Theorem duplicate_changes_nothing L E event context w p old :
  parse_outcome L event = Returned p →
  put_fault E = None →
  table w !! event_key (device_id p) (ts p) = Some old →
  is_Some (dict_get old "SK") →
  let r := ingest_event L E event context w in
  r.1 = Returned (_response 409
                    (PDict [("message", PStr "Duplicate event — already stored");
                            ("request_id", PStr (request_id_of E context))])
                    None)
  ∧ table r.2 = table w ∧ queue r.2 = queue w.
Proof.
  intros Hp Hput Hold [sk Hsk]. cbn zeta.
  unfold ingest_event, try_except. rewrite parse_body_pure, Hp.
  unfold put_item. rewrite Hput, item_key_make_item, Hold, Hsk. done.
Qed.

Lemma duplicate_changes_nothing_witness :
  let r := ingest_event sample_library (sample_env "u-2")
             (http_post (reading_raw_body "d1" 1000 "{}")) sample_context
             two_devices in
  status_of r.1 = Some 409
  ∧ table r.2 = table two_devices ∧ queue r.2 = queue two_devices.
Proof.
  destruct (duplicate_changes_nothing sample_library (sample_env "u-2")
              (http_post (reading_raw_body "d1" 1000 "{}")) sample_context
              two_devices
              {| device_id := "d1"; type := "temp"; value := f21_5;
                 ts := 1000; raw := Some [] |}
              (make_item (sample_env "req-0") (reading_payload "d1" 1000)
                 "req-1")
              ltac:(vm_compute; reflexivity) eq_refl
              ltac:(vm_compute; reflexivity) ltac:(vm_compute; eauto))
    as (H1 & H2 & H3).
  cbn zeta. rewrite H1. split; [reflexivity|]. split; [exact H2|exact H3].
Defined.

(** X20. Events that differ in [device_id] or in [ts] do not collide: two
    submissions for different pairs, neither stored yet, with no fault, are
    both accepted; the table gains both records and the queue both
    messages, in the order of the submissions. *)
Theorem distinct_events_are_both_stored L E1 E2 ev1 ev2 ctx1 ctx2 p1 p2 w :
  parse_outcome L ev1 = Returned p1 →
  parse_outcome L ev2 = Returned p2 →
  (device_id p1, ts p1) ≠ (device_id p2, ts p2) →
  table w !! event_key (device_id p1) (ts p1) = None →
  table w !! event_key (device_id p2) (ts p2) = None →
  put_fault E1 = None → send_fault E1 = None →
  put_fault E2 = None → send_fault E2 = None →
  let r1 := ingest_event L E1 ev1 ctx1 w in
  let r2 := ingest_event L E2 ev2 ctx2 r1.2 in
  status_of r1.1 = Some 201 ∧ status_of r2.1 = Some 201
  ∧ table r2.2
    = <[event_key (device_id p2) (ts p2)
        := make_item E2 p2 (request_id_of E2 ctx2)]>
        (<[event_key (device_id p1) (ts p1)
           := make_item E1 p1 (request_id_of E1 ctx1)]> (table w))
  ∧ size (table r2.2) = S (S (size (table w)))
  ∧ queue r2.2 = queue w ++ [make_sqs_msg p1 (request_id_of E1 ctx1);
                             make_sqs_msg p2 (request_id_of E2 ctx2)].
Proof.
  intros Hp1 Hp2 Hne Hf1 Hf2 Hput1 Hsend1 Hput2 Hsend2. cbn zeta.
  assert (event_key (device_id p1) (ts p1) ≠ event_key (device_id p2) (ts p2))
    as Hk.
  { intros [??]%event_key_inj. apply Hne. congruence. }
  assert (∀ E ev ctx p w0,
            parse_outcome L ev = Returned p → put_fault E = None →
            send_fault E = None →
            table w0 !! event_key (device_id p) (ts p) = None →
            status_of (ingest_event L E ev ctx w0).1 = Some 201
            ∧ table (ingest_event L E ev ctx w0).2
              = <[event_key (device_id p) (ts p)
                  := make_item E p (request_id_of E ctx)]> (table w0)
            ∧ queue (ingest_event L E ev ctx w0).2
              = queue w0 ++ [make_sqs_msg p (request_id_of E ctx)]) as Hone.
  { intros E ev ctx p w0 Hp Hput Hsend Hfresh.
    unfold ingest_event, try_except. rewrite parse_body_pure, Hp.
    unfold put_item. rewrite Hput, item_key_make_item, Hfresh. cbn.
    unfold send_message. by rewrite Hsend. }
  destruct (Hone E1 ev1 ctx1 p1 w Hp1 Hput1 Hsend1 Hf1) as (Hs1 & Ht1 & Hq1).
  destruct (Hone E2 ev2 ctx2 p2 (ingest_event L E1 ev1 ctx1 w).2 Hp2 Hput2
              Hsend2) as (Hs2 & Ht2 & Hq2).
  { rewrite Ht1, lookup_insert_ne by done. done. }
  split; [done|]. split; [done|]. rewrite Ht2, Hq2, Ht1, Hq1.
  split; [done|]. split.
  - rewrite !map_size_insert_None; [done..|].
    by rewrite lookup_insert_ne.
  - by rewrite <-app_assoc.
Qed.

Lemma distinct_events_are_both_stored_witness :
  let r1 := ingest_event sample_library (sample_env "u-1")
              (http_post (reading_body "d1" 9)) sample_context empty_world in
  let r2 := ingest_event sample_library (sample_env "u-2")
              (http_post (reading_body "d1" 10)) sample_context r1.2 in
  status_of r1.1 = Some 201 ∧ status_of r2.1 = Some 201
  ∧ size (table r2.2) = 2%nat.
Proof.
  destruct (distinct_events_are_both_stored sample_library
              (sample_env "u-1") (sample_env "u-2")
              (http_post (reading_body "d1" 9))
              (http_post (reading_body "d1" 10))
              sample_context sample_context
              (reading_payload "d1" 9) (reading_payload "d1" 10) empty_world
              eq_refl eq_refl ltac:(discriminate) eq_refl eq_refl
              eq_refl eq_refl eq_refl eq_refl) as (H1 & H2 & _ & H4 & _).
  exact (conj H1 (conj H2 H4)).
Defined.

(** ** Writes to one device and reads of another *)

(** The result of [get_device_events] depends on the table through the
    matching rows only. *)
Lemma get_device_events_rows L E event context w1 w2 :
  matching_rows (table w1) (requested_condition event) false
  = matching_rows (table w2) (requested_condition event) false →
  (get_device_events L E event context w1).1
  = (get_device_events L E event context w2).1.
Proof.
  intros Hrows.
  destruct (decide (requested_device event = "")) as [Hd|Hd].
  { unfold get_device_events. fold (requested_device event). by rewrite Hd. }
  destruct (requested_limit event) as [lim|e] eqn:Hl.
  2:{ unfold get_device_events. fold (requested_device event).
      rewrite (truthy_str _ Hd). cbn [negb].
      fold (requested_limit event). by rewrite Hl. }
  rewrite !(get_device_events_query _ _ _ _ _ lim Hd Hl).
  unfold try_except, query.
  destruct (query_fault E) as [e|]; [by destruct e|].
  destruct (lim <? 1); [done|].
  unfold bind, lift, ret. cbn [Items table log_call LastEvaluatedKey].
  rewrite Hrows. by destruct (convert_rows L _).
Qed.

(** A new record that does not match a key condition of the handler leaves
    the rows of the condition as they were. *)
Lemma matching_rows_insert_other tbl pk from_ts to_ts k it :
  keyed_table tbl → tbl !! k = None → keyed_item k it = true →
  eval_condition (make_key_condition pk from_ts to_ts) it ≠ true →
  matching_rows (<[k := it]> tbl) (make_key_condition pk from_ts to_ts) false
  = matching_rows tbl (make_key_condition pk from_ts to_ts) false.
Proof.
  intros Hkeyed Hfresh Hk Hit.
  set (c := make_key_condition pk from_ts to_ts).
  assert (∀ x, x ∈ matching_rows (<[k := it]> tbl) c false
               ↔ x ∈ matching_rows tbl c false) as Hmem.
  { intros x. rewrite !matching_rows_elem. split.
    - intros [[k' Hk'] Hc]. split; [|done].
      apply lookup_insert_Some in Hk' as [[_ <-]|[_ Hk']]; [done|eauto].
    - intros [[k' Hk'] Hc]. split; [|done]. exists k'.
      rewrite lookup_insert_ne; [done|]. intros <-. congruence. }
  apply (StronglySorted_unique_strong (scan_order false));
    [|apply matching_rows_sorted..|].
  - intros x1 x2 Hx1%Hmem Hx2 H12 H21.
    apply matching_rows_elem in Hx1 as [[k1 Hk1] Hc1].
    apply matching_rows_elem in Hx2 as [[k2 Hk2] Hc2].
    apply make_key_condition_pk in Hc1, Hc2.
    pose proof (Hkeyed _ _ Hk1) as Hi1. pose proof (Hkeyed _ _ Hk2) as Hi2.
    cbn in Hi1, Hi2.
    apply keyed_item_spec in Hi1 as (_ & _ & _ & _ & _ & _ & Hpk1 & Hsk1).
    apply keyed_item_spec in Hi2 as (_ & _ & _ & _ & _ & _ & Hpk2 & Hsk2).
    unfold scan_order, sort_key in H12, H21. rewrite Hsk1, Hsk2 in H12, H21.
    cbn [default id] in H12, H21.
    pose proof (anti_symm String.le _ _ H12 H21) as Hsk.
    assert (k1 = k2) as ->; [|congruence].
    destruct k1, k2. cbn in *. congruence.
  - apply NoDup_Permutation; [|by apply matching_rows_NoDup|done].
    apply matching_rows_NoDup. by apply map_Forall_insert_2.
Qed.

(** X21. A write for one device does not change what a read of another
    device returns: on a table of keyed records, after any [ingest_event]
    whose payload, if it has one, is for a device other than the requested
    one, [get_device_events] gives the result it gave before. *)
Theorem ingest_leaves_other_devices_alone L E1 E2 event context1 q context2 w :
  keyed_table (table w) →
  (∀ p, parse_outcome L event = Returned p →
        device_id p ≠ requested_device q) →
  (get_device_events L E2 q context2
     (ingest_event L E1 event context1 w).2).1
  = (get_device_events L E2 q context2 w).1.
Proof.
  intros Hkeyed Hother. apply get_device_events_rows.
  destruct (ingest_event_effect L E1 event context1 w)
    as [[-> _]|(p & Hp & Hold & -> & _)]; [done|].
  unfold requested_condition. apply matching_rows_insert_other; [done| | |].
  - destruct (table w !! event_key (device_id p) (ts p)) as [old|] eqn:Hk;
      [|done].
    pose proof (Hkeyed _ _ Hk) as Hi. cbn in Hi.
    apply keyed_item_spec in Hi as (_ & _ & _ & _ & _ & _ & _ & Hsk).
    apply str_attr_Some in Hsk. by rewrite (Hold _ eq_refl) in Hsk.
  - apply keyed_make_item. by eapply parse_outcome_ts_pos.
  - intros Hc%make_key_condition_pk.
    pose proof (keyed_make_item E1 p (request_id_of E1 context1)
                  (parse_outcome_ts_pos _ _ _ Hp)) as Hi.
    apply keyed_item_spec in Hi as (_ & _ & _ & _ & _ & _ & Hpk & _).
    rewrite Hpk in Hc. apply (inj Some) in Hc. cbn [event_key fst] in Hc.
    apply (Hother p Hp). by apply (inj (String.app "DEVICE#")).
Qed.

Lemma ingest_leaves_other_devices_alone_witness :
  (get_device_events sample_library (sample_env "u-2") (http_get "d1" [])
     sample_context
     (ingest_event sample_library (sample_env "u-1")
        (http_post (reading_body "d2" 1000)) sample_context nine_and_ten).2).1
  = (get_device_events sample_library (sample_env "u-2") (http_get "d1" [])
       sample_context nine_and_ten).1.
Proof.
  apply (ingest_leaves_other_devices_alone sample_library (sample_env "u-1")
           (sample_env "u-2") (http_post (reading_body "d2" 1000))
           sample_context (http_get "d1" []) sample_context nine_and_ten).
  - apply (reachable_keyed sample_library).
    apply reach_ingest, reach_ingest, reach_empty.
  - intros p Hp.
    assert (Returned p = Returned (reading_payload "d2" 1000)) as Heq
      by (rewrite <-Hp; vm_compute; reflexivity).
    injection Heq as ->. vm_compute. discriminate.
Defined.

(** ** Reading back a decimal integer *)

Lemma string_app_nil_r (s : string) : s +:+ "" = s.
Proof.
  induction s as [|c s IH]; [done|].
  change (String c (s +:+ "") = String c s). by rewrite IH.
Qed.

Lemma rev_app_rev_app (s1 s2 s3 : string) :
  String.rev_app (String.rev_app s1 s2) s3 = String.rev_app s2 (s1 +:+ s3).
Proof.
  revert s2. induction s1 as [|c s1 IH]; intros s2; [done|].
  cbn [String.rev_app]. by rewrite IH.
Qed.

Lemma string_rev_involutive (s : string) : String.rev (String.rev s) = s.
Proof.
  unfold String.rev. rewrite rev_app_rev_app. cbn [String.rev_app].
  apply string_app_nil_r.
Qed.

Lemma digit_val_pretty_N_char (r : N) :
  (r < 10)%N → digit_val (pretty_N_char r) = Some (Z.of_N r).
Proof.
  intros Hr.
  assert (r = 0 ∨ r = 1 ∨ r = 2 ∨ r = 3 ∨ r = 4 ∨ r = 5 ∨ r = 6 ∨ r = 7
          ∨ r = 8 ∨ r = 9)%N as Hr' by lia.
  repeat (destruct Hr' as [->|Hr']; [done|]). by subst.
Qed.

(** The digits [pretty_N_go] writes are read back and counted by
    [scan_digits]: there are [k] of them for a number from [10 ^ (k - 1)]
    on. *)
Lemma scan_digits_pretty_N_go (x : N) :
  (0 < x)%N →
  ∀ s, ∃ k, 0 < k ∧ 10 ^ (k - 1) ≤ Z.of_N x
       ∧ (∀ acc n b, scan_digits acc n b (pretty_N_go x s)
                     = scan_digits (acc * 10 ^ k + Z.of_N x) (n + k) true s)
       ∧ ∃ c rest, pretty_N_go x s = String c rest ∧ is_Some (digit_val c).
Proof.
  induction (N.lt_wf_0 x) as [x _ IH]. intros Hx s.
  rewrite (pretty_N_go_step x s Hx).
  pose proof (N.div_mod x 10 ltac:(done)) as Ex.
  pose proof (N.mod_lt x 10 ltac:(done)) as Mx.
  pose proof (digit_val_pretty_N_char _ Mx) as Hdv.
  destruct (decide (x `div` 10 = 0)%N) as [Hq|Hq].
  - rewrite Hq, pretty_N_go_0. exists 1. split; [done|]. split; [|split].
    + change (10 ^ (1 - 1)) with 1. lia.
    + intros acc n b. cbn [scan_digits]. rewrite Hdv.
      f_equal. rewrite Hq in Ex. change (10 ^ 1) with 10. lia.
    + eexists _, _. split; [done|]. rewrite Hdv. eauto.
  - destruct (IH (x `div` 10)%N) with (s := String (pretty_N_char (x `mod` 10)) s)
      as (k & Hk & Hlow & Hscan & Hhd); [apply N.div_lt; lia|lia|].
    exists (k + 1). split; [lia|]. split; [|split; [|done]].
    + replace (k + 1 - 1) with (Z.succ (k - 1)) by lia.
      rewrite Z.pow_succ_r by lia.
      rewrite Ex at 1. rewrite N2Z.inj_add, N2Z.inj_mul.
      change (Z.of_N 10) with 10.
      pose proof (N2Z.is_nonneg (x `mod` 10)) as Hm.
      revert Hlow Hm. generalize (10 ^ (k - 1)) (Z.of_N (x `div` 10))
        (Z.of_N (x `mod` 10)). lia.
    + intros acc n b. rewrite Hscan. cbn [scan_digits]. rewrite Hdv.
      rewrite Z.pow_add_r, Z.pow_1_r by lia.
      f_equal; [|lia].
      rewrite Ex at 3. rewrite N2Z.inj_add, N2Z.inj_mul.
      change (Z.of_N 10) with 10.
      generalize (10 ^ k) (Z.of_N (x `div` 10)) (Z.of_N (x `mod` 10)). lia.
Qed.

Lemma int_of_str_digit_head c rest :
  is_Some (digit_val c) →
  int_of_str (String c rest) = int_literal false (String c rest).
Proof.
  intros Hd.
  destruct c as [[] [] [] [] [] [] [] []]; try reflexivity; by destruct Hd.
Qed.

(** A run of at most [int_max_str_digits] digits with nothing after it is
    the literal of its value. *)
Lemma int_literal_digits negative r v k :
  scan_digits 0 0 false r = Some (v, k, "") →
  0 < k ≤ int_max_str_digits →
  int_literal negative r = inr (if negative then - v else v).
Proof.
  intros Hr [Hk Hmax]. unfold int_literal. rewrite Hr.
  assert ((int_max_str_digits <? k) = false) as -> by by apply Z.ltb_ge.
  assert ((k =? 0) = false) as -> by (apply Z.eqb_neq; lia).
  reflexivity.
Qed.

(** A number below [10 ^ m] is written with at most [m] digits. *)
Lemma digits_bound (k m x : Z) :
  0 ≤ m → 10 ^ (k - 1) ≤ x → x < 10 ^ m → k ≤ m.
Proof.
  intros Hm Hlow Hhigh.
  assert (k - 1 < m); [|lia].
  apply (Z.pow_lt_mono_r_iff 10); [lia|done|].
  by eapply Z.le_lt_trans.
Qed.

(** [int(str(z)) = z], for a [z] of at most [int_max_str_digits] digits. *)
Lemma int_of_str_of_int (z : Z) :
  Z.abs z < 10 ^ int_max_str_digits → int_of_str (str_of_int z) = inr z.
Proof.
  destruct z as [|p|p]; [reflexivity|..]; intros Hz;
    unfold str_of_int, pretty, pretty_Z, pretty, pretty_positive, pretty,
      pretty_N; rewrite decide_False by done;
    destruct (scan_digits_pretty_N_go (N.pos p) ltac:(done) "")
      as (k & Hk & Hlow & Hscan & (c & rest & Hc & Hd));
    pose proof (digits_bound k int_max_str_digits (Z.pos p) ltac:(done) Hlow Hz)
      as Hmax;
    assert (scan_digits 0 0 false (pretty_N_go (N.pos p) "")
            = Some (Z.pos p, k, "")) as Hrun
      by (rewrite Hscan; cbn [scan_digits orb];
          by rewrite Z.mul_0_l, !Z.add_0_l).
  - rewrite Hc, int_of_str_digit_head, <-Hc by done.
    by rewrite (int_literal_digits false _ _ _ Hrun).
  - change ("-" +:+ pretty_N_go (N.pos p) "")
      with (String "-" (pretty_N_go (N.pos p) "")).
    change (int_of_str (String "-" (pretty_N_go (N.pos p) "")))
      with (int_literal true (pretty_N_go (N.pos p) "")).
    by rewrite (int_literal_digits true _ _ _ Hrun).
Qed.

(** X22. A [limit] written as a decimal integer of at most 4300 digits is
    the page size of the store query: [get_device_events] reads it back as
    that integer and makes one [query] call with it as [Limit], newest
    first. *)
Theorem decimal_limit_is_the_page_size L E event context w n :
  requested_device event ≠ "" →
  Z.abs n < 10 ^ int_max_str_digits →
  default ∅ (queryStringParameters event) !! "limit" = Some (str_of_int n) →
  requested_limit event = Returned n
  ∧ new_calls w (get_device_events L E event context w).2
      [CallQuery (requested_condition event) n false (query_raised E n)].
Proof.
  intros Hd Hn Hl.
  assert (requested_limit event = Returned n) as Hlim.
  { unfold requested_limit. rewrite Hl. cbn [py_int].
    by rewrite int_of_str_of_int. }
  split; [done|]. by apply get_device_events_calls.
Qed.

Lemma decimal_limit_is_the_page_size_witness :
  requested_limit (http_get "d1" [("limit", "2")]) = Returned 2
  ∧ new_calls two_devices
      (get_device_events sample_library (sample_env "u-1")
         (http_get "d1" [("limit", "2")]) sample_context two_devices).2
      [CallQuery (requested_condition (http_get "d1" [("limit", "2")])) 2 false
         (query_raised (sample_env "u-1") 2)].
Proof.
  apply (decimal_limit_is_the_page_size sample_library (sample_env "u-1")
           (http_get "d1" [("limit", "2")]) sample_context two_devices 2).
  - vm_compute. discriminate.
  - vm_compute. reflexivity.
  - vm_compute. reflexivity.
Defined.

(** ** Request ids and status codes *)

(** Every way [ingest_event] returns. *)
Lemma ingest_event_responses L E event context w resp :
  (ingest_event L E event context w).1 = Returned resp →
  let rid := request_id_of E context in
  (∃ msg, resp = _response 400 (PDict [("error", PStr "Invalid JSON body");
                                       ("detail", PStr msg)]) (Some rid))
  ∨ (∃ errors,
       resp = _response 400
                (PDict [("error", PStr "Validation failed");
                        ("detail", PList (error_dict <$> errors))])
                (Some rid))
  ∨ resp = _response 409
             (PDict [("message", PStr "Duplicate event — already stored");
                     ("request_id", PStr rid)]) None
  ∨ resp = _response 500 (PDict [("error", PStr "Failed to store event")])
             (Some rid)
  ∨ (∃ msg, resp = _response 500 (PDict [("message", PStr "SQS Enqueue failed,");
                                         ("error", PStr msg)]) None)
  ∨ (∃ p, resp = _response 201
                   (PDict [("message", PStr "Event ingested");
                           ("device_id", PStr (device_id p));
                           ("ts", PInt (ts p));
                           ("request_id", PStr rid)]) None).
Proof.
  cbn zeta. unfold ingest_event, try_except. rewrite parse_body_pure.
  destruct (parse_outcome L event) as [p|e].
  - unfold put_item. rewrite item_key_make_item.
    assert (∀ w0,
      (let (o, w') := send_message E (make_sqs_msg p (request_id_of E context)) w0 in
       match o with
       | Returned _ =>
           ret (_response 201
                  (PDict [("message", PStr "Event ingested");
                          ("device_id", PStr (device_id p));
                          ("ts", PInt (ts p));
                          ("request_id", PStr (request_id_of E context))])
                  None) w'
       | Raised e =>
           match
             match e with
             | ClientError _ msg =>
                 Some (ret (_response 500
                              (PDict [("message", PStr "SQS Enqueue failed,");
                                      ("error", PStr msg)]) None))
             | _ => None
             end
           with
           | Some h => h w'
           | None => (Raised e, w')
           end
       end).1 = Returned resp →
      (∃ msg, resp = _response 500
                       (PDict [("message", PStr "SQS Enqueue failed,");
                               ("error", PStr msg)]) None)
      ∨ (∃ p0, resp = _response 201
                        (PDict [("message", PStr "Event ingested");
                                ("device_id", PStr (device_id p0));
                                ("ts", PInt (ts p0));
                                ("request_id", PStr (request_id_of E context))])
                        None)) as Hsend.
    { intros w0. unfold send_message.
      destruct (send_fault E) as [[]|]; cbn; try done;
        intros [= <-]; eauto. }
    destruct (put_fault E) as [e|].
    { destruct e; try done. destruct (String.eqb _ _); intros [= <-]; auto. }
    destruct (table w !! event_key (device_id p) (ts p)) as [old|].
    + destruct (dict_get old "SK"); [intros [= <-]; auto|].
      intros H. apply Hsend in H. tauto.
    + intros H. apply Hsend in H. tauto.
  - destruct e; try done; intros [= <-]; eauto.
Qed.

(** X23. The status codes: a response of [ingest_event] is a 201, 400, 409
    or 500, and a response of [get_device_events] a 200, 400 or 500. *)
Theorem handler_status_codes L E event context w resp :
  ((ingest_event L E event context w).1 = Returned resp →
   statusCode resp ∈ [201; 400; 409; 500])
  ∧ ((get_device_events L E event context w).1 = Returned resp →
     statusCode resp ∈ [200; 400; 500]).
Proof.
  split.
  - intros H. apply ingest_event_responses in H. cbn zeta in H.
    destruct H as [[? ->]|[[? ->]|[->|[->|[[? ->]|[? ->]]]]]];
      cbn [statusCode _response]; set_solver.
  - destruct (decide (requested_device event = "")) as [Hd|Hd].
    { unfold get_device_events. fold (requested_device event). rewrite Hd.
      intros [= <-]. cbn. set_solver. }
    destruct (requested_limit event) as [lim|e] eqn:Hl.
    2:{ unfold get_device_events. fold (requested_device event).
        rewrite (truthy_str _ Hd). cbn [negb].
        fold (requested_limit event). rewrite Hl. done. }
    rewrite (get_device_events_query _ _ _ _ _ lim Hd Hl).
    unfold try_except, query.
    destruct (query_fault E) as [e|].
    { destruct e; try done. intros [= <-]. cbn. set_solver. }
    destruct (lim <? 1); [done|].
    unfold bind, lift, ret. destruct (convert_rows L _); [|done].
    intros [= <-]. cbn. set_solver.
Qed.

(** X24. Which responses carry the request id: with a non-empty request
    id, every response of [get_device_events] has it under [request_id], and
    so has every response of [ingest_event] other than the 500 of a failed
    publish. *)
Theorem responses_with_request_id L E event context w resp :
  request_id_of E context ≠ "" →
  ((get_device_events L E event context w).1 = Returned resp →
   body_field resp "request_id" = Some (PStr (request_id_of E context)))
  ∧ ((ingest_event L E event context w).1 = Returned resp →
     body_field resp "request_id" = Some (PStr (request_id_of E context))
     ∨ (statusCode resp = 500
        ∧ body_field resp "message" = Some (PStr "SQS Enqueue failed,"))).
Proof.
  intros Hrid.
  assert (∀ st d, body_field (_response st (PDict d)
                                (Some (request_id_of E context))) "request_id"
                  = Some (PStr (request_id_of E context))) as Hbody.
  { intros st d. unfold body_field, _response. cbn [resp_body].
    rewrite (truthy_str _ Hrid). apply dict_get_set_eq. }
  split.
  - destruct (decide (requested_device event = "")) as [Hd|Hd].
    { unfold get_device_events. fold (requested_device event). rewrite Hd.
      intros [= <-]. apply Hbody. }
    destruct (requested_limit event) as [lim|e] eqn:Hl.
    2:{ unfold get_device_events. fold (requested_device event).
        rewrite (truthy_str _ Hd). cbn [negb].
        fold (requested_limit event). rewrite Hl. done. }
    rewrite (get_device_events_query _ _ _ _ _ lim Hd Hl).
    unfold try_except, query.
    destruct (query_fault E) as [e|].
    { destruct e; try done. intros [= <-]. apply Hbody. }
    destruct (lim <? 1); [done|].
    unfold bind, lift, ret. destruct (convert_rows L _); [|done].
    intros [= <-]. apply Hbody.
  - intros H. apply ingest_event_responses in H. cbn zeta in H.
    destruct H as [[? ->]|[[? ->]|[->|[->|[[? ->]|[? ->]]]]]];
      try (left; apply Hbody); try (left; reflexivity).
    right. split; reflexivity.
Qed.

Lemma handler_status_codes_witness :
  statusCode d1_page ∈ [200; 400; 500].
Proof.
  apply (proj2 (handler_status_codes sample_library (sample_env "u-1")
                  (http_get "d1" []) sample_context two_devices d1_page)).
  vm_compute. reflexivity.
Defined.

Lemma responses_with_request_id_witness :
  body_field d1_page "request_id" = Some (PStr "req-1").
Proof.
  apply (proj1 (responses_with_request_id sample_library (sample_env "u-1")
                  (http_get "d1" []) sample_context two_devices d1_page
                  ltac:(discriminate))).
  vm_compute. reflexivity.
Defined.

(** ** Device ids with surrounding whitespace *)

Lemma lstrip_idemp (s : string) : lstrip (lstrip s) = lstrip s.
Proof.
  induction s as [|c s IH]; [done|]. cbn [lstrip].
  destruct (py_isspace c) eqn:Hc; [done|]. cbn [lstrip]. by rewrite Hc.
Qed.

Lemma lstrip_head (s : string) c r :
  lstrip s = String c r → py_isspace c = false.
Proof.
  induction s as [|c' s IH]; [done|]. cbn [lstrip].
  destruct (py_isspace c') eqn:Hc; [done|]. by intros [= <- _].
Qed.

Lemma lstrip_suffix (s : string) : ∃ w, s = w +:+ lstrip s.
Proof.
  induction s as [|c s [w IH]]; [by exists ""|]. cbn [lstrip].
  destruct (py_isspace c).
  - exists (String c w).
    change (String c s = String c (w +:+ lstrip s)). by rewrite <-IH.
  - by exists "".
Qed.

Lemma rev_app_app (a b acc : string) :
  String.rev_app (a +:+ b) acc = String.rev_app b (String.rev_app a acc).
Proof.
  revert acc. induction a as [|c a IH]; intros acc; [done|].
  change (String.rev_app (a +:+ b) (String c acc)
          = String.rev_app b (String.rev_app a (String c acc))).
  apply IH.
Qed.

Lemma rev_app_acc (a acc : string) :
  String.rev_app a acc = String.rev_app a "" +:+ acc.
Proof.
  revert acc. induction a as [|c a IH]; intros acc; [done|].
  cbn [String.rev_app]. rewrite (IH (String c acc)), (IH (String c "")).
  by rewrite string_app_assoc.
Qed.

Lemma string_rev_app (a b : string) :
  String.rev (a +:+ b) = String.rev b +:+ String.rev a.
Proof. unfold String.rev. by rewrite rev_app_app, rev_app_acc. Qed.

(** [strip] is idempotent: a stripped string has nothing left to strip. *)
Lemma strip_idemp (s : string) : strip (strip s) = strip s.
Proof.
  unfold strip at 2. set (u := lstrip s).
  assert (lstrip (rstrip u) = rstrip u) as Hl.
  { unfold rstrip. destruct (lstrip_suffix (String.rev u)) as [w Hw].
    set (t := lstrip (String.rev u)) in *.
    destruct (String.rev t) as [|c r] eqn:Hv; [done|].
    assert (u = String.rev t +:+ String.rev w) as Hu
      by (by rewrite <-string_rev_app, <-Hw, string_rev_involutive).
    rewrite Hv in Hu.
    assert (py_isspace c = false) as Hc by by apply (lstrip_head s c (r +:+ String.rev w)).
    cbn [lstrip]. by rewrite Hc. }
  unfold strip. rewrite Hl. unfold rstrip.
  by rewrite string_rev_involutive, lstrip_idemp.
Qed.

(** Every returned event carries the stripped requested id. *)
Lemma returned_event_device L E event context w resp row :
  reachable L w →
  (get_device_events L E event context w).1 = Returned resp →
  PDict row ∈ events_of resp →
  dict_get row "device_id" = Some (PStr (requested_device event)).
Proof.
  intros Hreach Hresp Hv.
  destruct (get_device_events_returns _ _ _ _ _ _ _ Hresp Hv)
    as (it & row' & Hin & Hconv & [= ->]).
  apply matching_rows_elem in Hin as [[k Hk] Hcond].
  apply make_key_condition_pk in Hcond.
  pose proof (reachable_keyed _ _ Hreach _ _ Hk) as Hkeyed. cbn in Hkeyed.
  apply keyed_item_spec in Hkeyed as (d & t & -> & Hd & _ & _ & Hpk & _).
  rewrite Hpk in Hcond. apply (inj Some) in Hcond.
  cbn [event_key fst] in Hcond.
  apply (inj (String.app "DEVICE#")) in Hcond. subst d.
  apply convert_row_spec in Hconv as [_ Hother].
  rewrite Hother, row_from_store_get, (str_attr_Some _ _ _ Hd) by done. done.
Qed.

(** X25. Records stored under a device id with surrounding whitespace are
    never returned: in every world the handlers can reach, the [device_id]
    of each event [get_device_events] returns is a string that [strip]
    leaves as it is, so no request brings back a record that
    [ingest_event] stored under an id such as [" d1"]. *)
Theorem padded_device_ids_are_never_returned L E event context w resp row d :
  reachable L w →
  (get_device_events L E event context w).1 = Returned resp →
  PDict row ∈ events_of resp →
  dict_get row "device_id" = Some (PStr d) →
  strip d = d.
Proof.
  intros Hreach Hresp Hv Hd.
  rewrite (returned_event_device _ _ _ _ _ _ _ Hreach Hresp Hv) in Hd.
  injection Hd as <-. unfold requested_device. apply strip_idemp.
Qed.

Lemma padded_device_ids_are_never_returned_witness : strip "d1" = "d1".
Proof.
  apply (padded_device_ids_are_never_returned sample_library
           (sample_env "u-1") (http_get " d1" []) sample_context padded_world
           padded_page padded_row "d1").
  - apply reach_ingest, reach_ingest, reach_empty.
  - vm_compute. reflexivity.
  - vm_compute. apply list_elem_of_here.
  - vm_compute. reflexivity.
Defined.

(** X28. Isolation up to trimming: in every world the handlers can reach,
    each event [get_device_events] returns is the converted row of a record
    that is stored under the key of the requested id, with its surrounding
    whitespace stripped, and of the event's own [ts], and that was ingested
    with that id as its [device_id].  So a request for an id without
    surrounding whitespace is answered with records of that device only. *)
Theorem returned_events_are_of_the_stripped_device L E event context w resp v :
  reachable L w →
  (get_device_events L E event context w).1 = Returned resp →
  v ∈ events_of resp →
  ∃ row it t,
    v = PDict row
    ∧ table w !! event_key (requested_device event) t = Some it
    ∧ str_attr it "device_id" = Some (requested_device event)
    ∧ convert_row L (row_from_store it) = Returned row
    ∧ dict_get row "ts" = Some (PInt t)
    ∧ dict_get row "device_id" = Some (PStr (requested_device event)).
Proof.
  intros Hreach Hresp Hv.
  destruct (get_device_events_returns _ _ _ _ _ _ _ Hresp Hv)
    as (it & row & Hin & Hconv & ->).
  apply matching_rows_elem in Hin as [[k Hk] Hcond].
  apply make_key_condition_pk in Hcond.
  pose proof (reachable_keyed _ _ Hreach _ _ Hk) as Hkeyed. cbn in Hkeyed.
  apply keyed_item_spec in Hkeyed as (d & t & -> & Hd & Hts & _ & Hpk & _).
  rewrite Hpk in Hcond. apply (inj Some) in Hcond.
  cbn [event_key fst] in Hcond.
  apply (inj (String.app "DEVICE#")) in Hcond. subst d.
  exists row, it, t. do 4 (split; [done|]).
  pose proof Hconv as [(vt & t' & Hvt & Hint & Hrow) Hother]%convert_row_spec.
  split.
  - rewrite row_from_store_get in Hvt. unfold item_ts in Hts.
    destruct (dict_get it "ts") as [[]|]; try done.
    injection Hts as ->. cbn in Hvt. injection Hvt as <-. cbn in Hint.
    by injection Hint as <-.
  - rewrite Hother, row_from_store_get, (str_attr_Some _ _ _ Hd) by done. done.
Qed.

Lemma returned_events_are_of_the_stripped_device_witness :
  ∃ row it t,
    d1_event = PDict row
    ∧ table two_devices !! event_key (requested_device (http_get "d1" [])) t
      = Some it
    ∧ str_attr it "device_id" = Some (requested_device (http_get "d1" []))
    ∧ convert_row sample_library (row_from_store it) = Returned row
    ∧ dict_get row "ts" = Some (PInt t)
    ∧ dict_get row "device_id"
      = Some (PStr (requested_device (http_get "d1" []))).
Proof.
  apply (returned_events_are_of_the_stripped_device sample_library
           (sample_env "u-1") (http_get "d1" []) sample_context two_devices
           d1_page d1_event).
  - apply reach_ingest, reach_ingest, reach_empty.
  - vm_compute. reflexivity.
  - vm_compute. apply list_elem_of_here.
Defined.

(** ** Field rules at the boundary *)

(** A body that breaks a field rule is answered with one 400 whose detail
    names the violated fields, and the world is left as it was. *)
Lemma rejected_fields L E event context w text data :
  body event = Some (PStr text) →
  json_loads L text = inr (PDict data) →
  violated_fields L data ≠ [] →
  ∃ resp,
    ingest_event L E event context w = (Returned resp, w)
    ∧ statusCode resp = 400
    ∧ detail_fields resp = PStr <$> violated_fields L data.
Proof.
  intros Hb Hj Hv.
  destruct (EventPayload_init_inl L data Hv) as (errs & Hinit & Hloc).
  eexists. split; [|split].
  - unfold ingest_event, try_except, _parse_body.
    rewrite Hb, Hj, Hinit. reflexivity.
  - reflexivity.
  - unfold detail_fields. rewrite response_field by done.
    change (dict_get _ "detail") with (Some (PList (error_dict <$> errs))).
    cbv beta iota. by rewrite detail_of_errors, Hloc.
Qed.

(** X26. A [ts] that is an integer but not positive (zero included) is
    rejected: [ingest_event] returns a 400 whose detail names [ts], and
    neither stores nor publishes anything. *)
Theorem non_positive_ts_is_rejected L E event context w text data t :
  body event = Some (PStr text) →
  json_loads L text = inr (PDict data) →
  dict_get data "ts" = Some (PInt t) → t ≤ 0 →
  ∃ resp,
    ingest_event L E event context w = (Returned resp, w)
    ∧ statusCode resp = 400
    ∧ PStr "ts" ∈ detail_fields resp.
Proof.
  intros Hb Hj Ht Hle.
  assert (is_invalid (check_ts L data) = true) as Hinv.
  { unfold check_ts, int_field, after_validator, ts_must_be_positive.
    rewrite Ht. by assert (t <=? 0 = true) as -> by by apply Z.leb_le. }
  assert ("ts" ∈ violated_fields L data) as Hin.
  { unfold violated_fields. rewrite Hinv. set_solver. }
  destruct (rejected_fields L E event context w text data Hb Hj)
    as (resp & H1 & H2 & H3).
  { intros Hnil. rewrite Hnil in Hin. by apply elem_of_nil in Hin. }
  exists resp. split; [done|]. split; [done|].
  rewrite H3. by apply list_elem_of_fmap_2.
Qed.

Lemma non_positive_ts_is_rejected_witness :
  ∃ resp,
    ingest_event sample_library' (sample_env "u-1") (http_post blank_body)
      sample_context empty_world = (Returned resp, empty_world)
    ∧ statusCode resp = 400
    ∧ PStr "ts" ∈ detail_fields resp.
Proof.
  apply (non_positive_ts_is_rejected sample_library' (sample_env "u-1")
           (http_post blank_body) sample_context empty_world blank_body
           blank_data 0).
  - reflexivity.
  - vm_compute. reflexivity.
  - reflexivity.
  - lia.
Defined.

(** X27. A [device_id] that is missing, is not a string, is empty or all
    whitespace, or has more than 128 characters is rejected:
    [ingest_event] returns a 400 whose detail names [device_id], and neither
    stores nor publishes anything. *)
Theorem bad_device_id_is_rejected L E event context w text data :
  body event = Some (PStr text) →
  json_loads L text = inr (PDict data) →
  (dict_get data "device_id" = None
   ∨ (∃ v, dict_get data "device_id" = Some v ∧ ∀ s, v ≠ PStr s)
   ∨ (∃ s, dict_get data "device_id" = Some (PStr s)
           ∧ (strip s = "" ∨ (128 < String.length s)%nat))) →
  ∃ resp,
    ingest_event L E event context w = (Returned resp, w)
    ∧ statusCode resp = 400
    ∧ PStr "device_id" ∈ detail_fields resp.
Proof.
  intros Hb Hj Hbad.
  assert (is_invalid (check_device_id data) = true) as Hinv.
  { unfold check_device_id, after_validator, str_field, not_empty.
    destruct Hbad as [->|[(v & -> & Hv)|(s & -> & Hs)]]; [done| |].
    - destruct v; try done. by destruct (Hv s).
    - destruct (String.length s <? 1)%nat; [done|].
      destruct (128 <? String.length s)%nat eqn:Hlen; [done|].
      apply Nat.ltb_ge in Hlen. destruct Hs as [->|?]; [done|lia]. }
  assert ("device_id" ∈ violated_fields L data) as Hin.
  { unfold violated_fields. rewrite Hinv. set_solver. }
  destruct (rejected_fields L E event context w text data Hb Hj)
    as (resp & H1 & H2 & H3).
  { intros Hnil. rewrite Hnil in Hin. by apply elem_of_nil in Hin. }
  exists resp. split; [done|]. split; [done|].
  rewrite H3. by apply list_elem_of_fmap_2.
Qed.

Lemma bad_device_id_is_rejected_witness :
  ∃ resp,
    ingest_event sample_library' (sample_env "u-1") (http_post blank_body)
      sample_context empty_world = (Returned resp, empty_world)
    ∧ statusCode resp = 400
    ∧ PStr "device_id" ∈ detail_fields resp.
Proof.
  apply (bad_device_id_is_rejected sample_library' (sample_env "u-1")
           (http_post blank_body) sample_context empty_world blank_body
           blank_data).
  - reflexivity.
  - vm_compute. reflexivity.
  - right. right. exists "   ". split; [reflexivity|]. left.
    vm_compute. reflexivity.
Defined.
